(** * Science in Motion: embedding of the numeric kernels, the save paths
    and the command-line driver.

    Python floats and numpy float64 arrays are IEEE binary64 values, modelled
    with the primitive floats [PrimFloat.float]; a numpy 1-d array is a
    [list float] updated with stdpp's list insert. Library functions whose
    results depend on a C math library ([np.log], [np.exp], [abs] on a
    complex, [np.sin], float [%], [pow]) are section variables. *)

From Stdlib Require Import ZArith List PrimFloat Uint63 SpecFloat FloatOps QArith Arith.Factorial.
From stdpp Require Import base list gmap strings.

Local Open Scope nat_scope.
Set Warnings "-inexact-float,-abstract-large-number".

(** ** Float helpers *)

(** [float(n)] for a small non-negative Python int. *)
Definition float_of_nat (n : nat) : float := of_uint63 (Uint63.of_Z (Z.of_nat n)).

(** Rounding a float64 to the nearest float32 (storing into a numpy
    [float32] array), read back as a float64. *)
Definition to_float32 (x : float) : float :=
  SF2Prim (match Prim2SF x with
           | S754_finite s m e => binary_round 24 128 s m e
           | other => other
           end).

(** Truncating [int(x)] of a non-negative finite float. *)
Definition py_int (x : float) : Z :=
  match Prim2SF x with
  | S754_finite false m e =>
      if (0 <=? e)%Z then Z.shiftl (Zpos m) e else Z.shiftr (Zpos m) (- e)
  | S754_finite true m e =>
      - (if (0 <=? e)%Z then Z.shiftl (Zpos m) e else Z.shiftr (Zpos m) (- e))
  | _ => 0%Z
  end.

(** [np.linspace(start, stop, num)]: entry [i] is [start + i*step] with
    [step = (stop - start)/(num - 1)], and the last entry is overwritten
    with [stop]; a single sample is [start]. *)
Definition linspace (start stop : float) (num : nat) : list float :=
  match num with
  | 0 => []
  | 1 => [start]
  | S div =>
      let step := ((stop - start) / float_of_nat div)%float in
      <[div := stop]> (map (fun i => (start + float_of_nat i * step)%float) (seq 0 num))
  end.

(** ** Complex numbers (complex128) *)

Record complex := mkC { re : float; im : float }.

Definition czero : complex := mkC 0%float 0%float.

Definition cadd (a b : complex) : complex :=
  mkC (re a + re b)%float (im a + im b)%float.

Definition cmul (a b : complex) : complex :=
  mkC (re a * re b - im a * im b)%float (re a * im b + im a * re b)%float.

(** ** [mandelbrot_numpy] (src/simulations/mandelbrot_zoom.py) *)

Module Mandelbrot.
Section Mandelbrot.

(** [np.log] on a float64 and [abs] on a complex128. *)
Variable np_log : float -> float.
Variable cabs : complex -> float.

(** [z.real*z.real + z.imag*z.imag] *)
Definition norm2 (z : complex) : float := (re z * re z + im z * im z)%float.

(** [k + 1 - np.log(np.log(abs(z))) / np.log(2)] *)
Definition smooth (k : nat) (z : complex) : float :=
  (float_of_nat (k + 1) - np_log (np_log (cabs z)) / np_log 2)%float.

(** [for k in range(k0, k0 + fuel): z = z*z + c; if ... >= 4.0: break]:
    the step [k] and the value of [z] at the break, if any. *)
Fixpoint escape_loop (c z : complex) (k fuel : nat) : option (nat * complex) :=
  match fuel with
  | 0 => None
  | S fuel' =>
      let z' := cadd (cmul z z) c in
      if (4 <=? norm2 z')%float then Some (k, z') else escape_loop c z' (S k) fuel'
  end.

(** [result[i, j] = v] on a list of rows. *)
Definition set2 (res : list (list float)) (i j : nat) (v : float) : list (list float) :=
  alter (fun row => <[j := v]> row) i res.

(** Body of the two pixel loops: one pixel [(i, j)]. *)
Definition pixel_step (max_iters : nat) (x y : list float)
    (res : list (list float)) (i j : nat) : list (list float) :=
  let c := mkC (nth j x 0%float) (nth i y 0%float) in
  match escape_loop c czero 0 max_iters with
  | Some (k, z) => set2 res i j (to_float32 (smooth k z))
  | None => res
  end.

Definition view_x (w : nat) (center_x zoom_width : float) : list float :=
  linspace (center_x - zoom_width / 2)%float (center_x + zoom_width / 2)%float w.

Definition view_y (h w : nat) (center_y zoom_width : float) : list float :=
  let zoom_height := (zoom_width * float_of_nat h / float_of_nat w)%float in
  linspace (center_y - zoom_height / 2)%float (center_y + zoom_height / 2)%float h.

Definition mandelbrot_numpy (h w max_iters : nat) (center_x center_y zoom_width : float)
    : list (list float) :=
  let x := view_x w center_x zoom_width in
  let y := view_y h w center_y zoom_width in
  let result := replicate h (replicate w 0%float) in
  fold_left (fun res i =>
      fold_left (fun res j => pixel_step max_iters x y res i j) (seq 0 w) res)
    (seq 0 h) result.

(** The orbit of [0] under [z := z*z + c], as the spec phrases it. *)
Fixpoint orbit (c : complex) (n : nat) : complex :=
  match n with
  | 0 => czero
  | S n' => cadd (cmul (orbit c n') (orbit c n')) c
  end.

(** [k] is the first step at which the orbit leaves the radius-2 disc. *)
Definition first_escape (max_iters : nat) (c : complex) (k : nat) : Prop :=
  k < max_iters /\ (4 <=? norm2 (orbit c (S k)))%float = true /\
  forall k', k' < k -> (4 <=? norm2 (orbit c (S k')))%float = false.

(** The grid point of pixel [(i, j)]. *)
Definition grid_point (h w : nat) (center_x center_y zoom_width : float) (i j : nat) : complex :=
  mkC (nth j (view_x w center_x zoom_width) 0%float)
      (nth i (view_y h w center_y zoom_width) 0%float).

End Mandelbrot.
End Mandelbrot.

(** ** Lorenz attractor (src/simulations/lorenz-attractor.py, lines 20-51) *)

Module Lorenz.

Definition sigma : float := 10.0.
Definition rho : float := 28.0.
Definition beta : float := (8.0 / 3.0)%float.
Definition dt : float := 0.01.
Definition num_steps : nat := 8000.

Definition points := (list float * list float * list float)%type.

(** One pass of [for i in range(1, num_steps)]. *)
Definition euler_step (s : points) (i : nat) : points :=
  let '(xs, ys, zs) := s in
  let x := nth (i - 1) xs 0%float in
  let y := nth (i - 1) ys 0%float in
  let z := nth (i - 1) zs 0%float in
  let dx := (sigma * (y - x) * dt)%float in
  let dy := ((x * (rho - z) - y) * dt)%float in
  let dz := ((x * y - beta * z) * dt)%float in
  (<[i := (x + dx)%float]> xs, <[i := (y + dy)%float]> ys, <[i := (z + dz)%float]> zs).

(** The integration with [n] points; [xs[0] = ...] raises [IndexError]
    on empty arrays. The script runs it with [n = num_steps]. *)
Definition lorenz_integrate (n : nat) : option points :=
  match n with
  | 0 => None
  | _ =>
      let xs := <[0 := 0.1%float]> (replicate n 0%float) in
      let ys := <[0 := 0.0%float]> (replicate n 0%float) in
      let zs := <[0 := 0.0%float]> (replicate n 0%float) in
      Some (fold_left euler_step (seq 1 (n - 1)) (xs, ys, zs))
  end.

Definition lorenz_points : option points := lorenz_integrate num_steps.

End Lorenz.

(** ** Double pendulum (double_pendulum_tiktok.py, lines 56-85) *)

Module Pendulum.

(** A binary numpy ufunc on 1-d arrays: equal lengths pair up, a length-1
    operand broadcasts, other shapes raise. *)
Definition np_binop (f : float -> float -> float) (a b : list float) : option (list float) :=
  if decide (length a = length b) then Some (zip_with f a b)
  else match a, b with
       | [a0], _ => Some (map (f a0) b)
       | _, [b0] => Some (map (fun x => f x b0) a)
       | _, _ => None
       end.

Definition L1 : float := 1.0.
Definition L2 : float := 1.0.
Definition t_max : float := 30.0.
Definition fps : nat := 30.

(** [frames = int(t_max * fps)] and [t = np.linspace(0, t_max, frames)]. *)
Definition frames : nat := Z.to_nat (py_int (t_max * float_of_nat fps)%float).
Definition t_grid : list float := linspace 0 t_max frames.

Section Pendulum.
(** [np.sin], [np.cos] on a float64, and [scipy.integrate.odeint], whose
    result has one row [[theta1, omega1, theta2, omega2]] per time of [t]. *)
Variable np_sin np_cos : float -> float.
Variable odeint : list float -> list (list float).

(** [sol[:, k]] *)
Definition column (sol : list (list float)) (k : nat) : list float :=
  map (fun row => nth k row 0%float) sol.

Definition pendulum_xy (t : list float) : option (list float * list float * list float * list float) :=
  let sol := odeint t in
  let theta1 := column sol 0 in
  let theta2 := column sol 2 in
  let x1 := map (fun a => L1 * np_sin a)%float theta1 in
  let y1 := map (fun a => (- L1) * np_cos a)%float theta1 in
  match np_binop PrimFloat.add x1 (map (fun a => L2 * np_sin a)%float theta2),
        np_binop PrimFloat.sub y1 (map (fun a => L2 * np_cos a)%float theta2) with
  | Some x2, Some y2 => Some (x1, y1, x2, y2)
  | _, _ => None
  end.

End Pendulum.
End Pendulum.

(** ** Fourier series (src/simulations/fourier_series.py, lines 74-92) *)

Module Fourier.

Definition np_pi : float := 3.141592653589793.

Section Fourier.
(** [np.sin] on a float64, and the float [%] of numpy scalars. *)
Variable np_sin : float -> float.
Variable py_mod : float -> float -> float.

(** [fourier_term(n, x) = 4/(np.pi * (2*n-1)) * np.sin((2*n-1) * x)] *)
Definition fourier_term (n : nat) (x : list float) : list float :=
  let k := float_of_nat (2 * n - 1) in
  map (fun xi => (4 / (np_pi * k)) * np_sin (k * xi))%float x.

(** [result = np.zeros_like(x); for n in range(1, n_terms+1): result += ...] *)
Definition fourier_approx (x : list float) (n_terms : nat) : list float :=
  fold_left (fun result n => zip_with PrimFloat.add result (fourier_term n x))
    (seq 1 n_terms) (replicate (length x) 0%float).

(** [for i, val in enumerate(x): result[i] = 1 if val % (2*np.pi) < np.pi else -1] *)
Definition square_wave (x : list float) : list float :=
  fold_left (fun result '(i, val) =>
      if (py_mod val (2 * np_pi) <? np_pi)%float then <[i := 1%float]> result
      else <[i := (-1)%float]> result)
    (zip (seq 0 (length x)) x) (replicate (length x) 0%float).

(** The square-wave partial sum at one sample, as the spec writes it. *)
Definition partial_sum (n_terms : nat) (xi : float) : float :=
  fold_left (fun acc n =>
      (acc + 4 / (np_pi * float_of_nat (2 * n - 1)) * np_sin (float_of_nat (2 * n - 1) * xi))%float)
    (seq 1 n_terms) 0%float.

End Fourier.
End Fourier.

(** ** Files, writers and the save paths of the generators *)

Module Files.

Inductive exn :=
  | RuntimeError | FileNotFoundError | FileExistsError | NotADirectoryError
  | ModuleNotFoundError | ImportError | ValueError | IndexError | OtherError.

(** A path as its list of components; [os.path.join(d, f)] is [d ++ [f]]. *)
Definition path := list string.

Inductive node := Dir | File.

#[global] Instance node_eq_dec : EqDecision node.
Proof. solve_decision. Defined.

(** [animation.FFMpegWriter] / [writer="ffmpeg"], the [pillow] writer, and
    [plt.savefig] of a static image. *)
Inductive writer := FFMpeg | Pillow | Savefig.

(** The generators of the repository, one per script. *)
Inductive generator :=
  | GMandelbrot | GLorenz | GDoublePendulum | GHyperbolic
  | GFourier | GTrigChallenge | GSineCircle | GSineCosine | GAdvancedTrig | GTrigFunctions
  | GWaveFunction | GTriangle | GProjectile.

(** What the CLI dispatches to (generate_animations.py, lines 54-76). *)
Inductive cli_target :=
  | TPendulum | TLorenz | TMandelbrot | TQuantum | TFourier (n_terms : Z) | TTrig.

Inductive event :=
  | MakeDirs (p : path)
  | Save (p : path) (wr : writer)
  | Log (msg : string)
  | Help
  | Call (t : cli_target) (out : path).

Record world := { fs : gmap path node; trace : list event }.

Inductive result (A : Type) := Ok (a : A) | Exc (e : exn).
Arguments Ok {A} a.
Arguments Exc {A} e.

(** Python statements: state (file system and output) plus exceptions. *)
Definition M (A : Type) : Type := world -> result A * world.

#[global] Instance M_ret : MRet M := fun A a w => (Ok a, w).
#[global] Instance M_bind : MBind M := fun A B k m w =>
  match m w with
  | (Ok a, w') => k a w'
  | (Exc e, w') => (Exc e, w')
  end.

Definition emit (ev : event) : M unit :=
  fun w => (Ok tt, {| fs := fs w; trace := trace w ++ [ev] |}).

Definition raise {A} (e : exn) : M A := fun w => (Exc e, w).

(** [try: body except <catches> as e: handler(e)] *)
Definition try_except (body : M unit) (catches : exn -> bool) (handler : exn -> M unit) : M unit :=
  fun w => match body w with
           | (Exc e, w') => if catches e then handler e w' else (Exc e, w')
           | r => r
           end.

(** [os.makedirs(p, exist_ok=True)] on the file map: every missing
    directory along [p] is created, existing directories are kept; a file
    at [p] itself raises [FileExistsError], a file at a proper prefix of
    [p] makes the [mkdir] below it raise [NotADirectoryError];
    [os.makedirs("")] raises [FileNotFoundError]. *)
Fixpoint makedirs_go (prefix rest : path) (m : gmap path node) : result (gmap path node) :=
  match rest with
  | [] => Ok m
  | c :: rest' =>
      let p := prefix ++ [c] in
      match m !! p with
      | Some Dir => makedirs_go p rest' m
      | Some File =>
          match rest' with [] => Exc FileExistsError | _ => Exc NotADirectoryError end
      | None => makedirs_go p rest' (<[p := Dir]> m)
      end
  end.

Definition makedirs_fs (p : path) (m : gmap path node) : result (gmap path node) :=
  match p with
  | [] => Exc FileNotFoundError
  | _ => makedirs_go [] p m
  end.

Definition makedirs (p : path) : M unit :=
  fun w =>
    let tr := trace w ++ [MakeDirs p] in
    match makedirs_fs p (fs w) with
    | Ok m => (Ok tt, {| fs := m; trace := tr |})
    | Exc e => (Exc e, {| fs := fs w; trace := tr |})
    end.

(** Which writers raise, and with what, in the running environment. *)
Definition writer_env := writer -> option exn.

(** [ani.save(p, writer=wr)] (or [plt.savefig(p)]): raises what the
    writer raises, fails when the parent directory is missing (with an
    exception that depends on the writer, [OtherError] here), and
    otherwise writes the file. *)
Definition save (env : writer_env) (p : path) (wr : writer) : M unit :=
  fun w =>
    let tr := trace w ++ [Save p wr] in
    match env wr with
    | Some e => (Exc e, {| fs := fs w; trace := tr |})
    | None =>
        match removelast p with
        | [] => (Ok tt, {| fs := <[p := File]> (fs w); trace := tr |})
        | d => if decide (fs w !! d = Some Dir)
               then (Ok tt, {| fs := <[p := File]> (fs w); trace := tr |})
               else (Exc OtherError, {| fs := fs w; trace := tr |})
        end
    end.

Definition log (msg : string) : M unit := emit (Log msg).

(** [ani.save(p, writer=wr)] when the save cannot write the file: it
    raises what the writer raises when it is set up ([env wr]), and
    otherwise [err], raised later while the frames are drawn or written.
    No file is written. *)
Definition save_failing (env : writer_env) (p : path) (wr : writer) (err : exn) : M unit :=
  fun w =>
    let tr := trace w ++ [Save p wr] in
    match env wr with
    | Some e => (Exc e, {| fs := fs w; trace := tr |})
    | None => (Exc err, {| fs := fs w; trace := tr |})
    end.

(** The figure of create_fourier_visualization cannot be drawn: the
    mathtext of [eq2] (fourier_series.py, line 142) uses [\begin{cases}],
    which matplotlib's mathtext parser rejects with [ValueError] at the
    first draw of the figure. Inside [ani.save] that first draw happens
    when the first frame is grabbed, after the writer is set up; the
    writer's [finish] then runs in the [finally] of [MovieWriter.saving]:
    the pillow writer indexes its empty frame list and its [IndexError]
    replaces the [ValueError]; the ffmpeg writer waits for its process and
    the [ValueError] propagates (should ffmpeg exit with an error on the
    empty stream, [subprocess.CalledProcessError] replaces it, which the
    generator does not catch either). *)
Definition draw_error (wr : writer) : exn :=
  match wr with Pillow => IndexError | _ => ValueError end.

(** [ani.save(p, writer="ffmpeg")]: a writer given by name is looked up
    in matplotlib's writer registry. When the ffmpeg binary is not found
    ([env FFMpeg = Some FileNotFoundError]) matplotlib logs a warning and
    uses [PillowWriter] instead, which refuses the [.mp4] extension with
    [ValueError] when it writes the frames; otherwise the ffmpeg writer
    saves. *)
Definition save_by_name (env : writer_env) (p : path) : M unit :=
  match env FFMpeg with
  | Some FileNotFoundError =>
      log "MovieWriter ffmpeg unavailable; using Pillow instead." ;;
      save_failing env p Pillow ValueError
  | _ => save env p FFMpeg
  end.

Definition is_runtime_or_fnf (e : exn) : bool :=
  match e with RuntimeError | FileNotFoundError => true | _ => false end.
Definition is_fnf (e : exn) : bool :=
  match e with FileNotFoundError => true | _ => false end.
Definition is_exception (e : exn) : bool := true.

(** The save phase of a script with a [try] MP4 / [except (RuntimeError,
    FileNotFoundError)] GIF block (trig_challenge and the four
    circle-trace scripts). *)
Definition save_mp4_or_gif (env : writer_env) (out : path) (stem : string) : M unit :=
  makedirs out ;;
  log "Saving animation to {output_file}..." ;;
  try_except
    (save env (out ++ [stem +:+ ".mp4"]) FFMpeg ;; log "animation saved to '{output_file}'")
    is_runtime_or_fnf
    (fun _ =>
       log "ffmpeg not found. Saving as GIF instead..." ;;
       save env (out ++ [stem +:+ ".gif"]) Pillow ;;
       log "animation saved as GIF to '{gif_file}'" ;;
       log "File size: {file_size_mb:.2f} MB").

(** The save phase of triangle_angle_challenge and
    projectile_angle_challenge: [except Exception] to a GIF, and to a
    static PNG if the GIF fails too; [intro] is what is printed between
    [os.makedirs] and the [try]. *)
Definition save_mp4_gif_png (env : writer_env) (out : path) (stem : string) (intro : M unit)
    : M unit :=
  makedirs out ;;
  intro ;;
  try_except
    (save env (out ++ [stem +:+ ".mp4"]) FFMpeg ;; log "animation saved to '{output_file}'")
    is_exception
    (fun _ =>
       log "Error saving MP4: {e}" ;;
       log "Trying GIF..." ;;
       try_except
         (save env (out ++ [stem +:+ ".gif"]) Pillow ;; log "Saved as GIF to '{gif_file}'")
         is_exception
         (fun _ =>
            log "Error saving GIF: {e}" ;;
            save env (out ++ [stem +:+ "_static.png"]) Savefig ;;
            log "Saved static image instead")).

(** The file-writing tail of every generator, from its [os.makedirs] (if
    any) to its last save; printed messages that are f-strings are kept as
    their templates. [out] is the [output_dir] argument; the Lorenz and
    double-pendulum scripts take none and write to the working directory. *)
Definition gen_save (env : writer_env) (g : generator) (out : path) : M unit :=
  match g with
  | GMandelbrot =>
      makedirs out ;;
      log "Saving animation to {output_file}..." ;;
      save env (out ++ ["mandelbrot_zoom.mp4"]) FFMpeg ;;
      log "Mandelbrot zoom animation saved to '{output_file}'" ;;
      log "File size: {file_size:.2f} MB"
  | GLorenz =>
      log "Saving animation to {output_file}..." ;;
      save env ["lorenz_attractor_tiktok.mp4"] FFMpeg ;;
      log "Animation saved to '{output_file}'" ;;
      log "File size: {file_size:.2f} KB"
  | GDoublePendulum =>
      log "Generating animation... Please wait." ;;
      save_by_name env ["double_pendulum_tiktok.mp4"] ;;
      log "Animation saved to '{output_file}'"
  | GHyperbolic =>
      makedirs out ;;
      save env (out ++ ["hyperbolic_paraboloid.mp4"]) FFMpeg ;;
      log "Hyperbolic paraboloid animation saved to '{output_file}'"
  | GFourier =>
      makedirs out ;;
      log "Saving animation to {output_file}..." ;;
      try_except
        (save_failing env (out ++ ["fourier_series.mp4"]) FFMpeg (draw_error FFMpeg) ;;
         log "Fourier series animation saved to '{output_file}'")
        is_runtime_or_fnf
        (fun _ =>
           log "ffmpeg not found. Saving as GIF instead..." ;;
           save_failing env (out ++ ["fourier_series.gif"]) Pillow (draw_error Pillow) ;;
           log "Fourier series animation saved as GIF to '{gif_file}'" ;;
           log "File size: {file_size_mb:.2f} MB")
  | GTrigChallenge => save_mp4_or_gif env out "trig_challenge"
  | GSineCircle => save_mp4_or_gif env out "sine_circle_trace"
  | GSineCosine => save_mp4_or_gif env out "sine_cosine_circle"
  | GAdvancedTrig => save_mp4_or_gif env out "advanced_trig_functions"
  | GTrigFunctions => save_mp4_or_gif env out "trig_functions_circle" 
  | GWaveFunction =>
      makedirs out ;;
      log "Saving animation to {output_file}..." ;;
      try_except
        (save env (out ++ ["wave_function_collapse.mp4"]) FFMpeg ;;
         log "Quantum wave function animation saved to '{output_file}'")
        is_fnf
        (fun _ =>
           log "ffmpeg not found. Saving as GIF instead..." ;;
           save env (out ++ ["wave_function_collapse.gif"]) Pillow ;;
           log "Quantum wave function animation saved as GIF to '{gif_file}'") ;;
      log "File size: {file_size:.2f} MB"
  | GTriangle => save_mp4_gif_png env out "triangle_angle_challenge" (mret tt)
  | GProjectile =>
      save_mp4_gif_png env out "projectile_challenge"
        (log "SOLUTION (Do not share with students)")
  end.



(** Whether a generator takes an [output_dir] parameter. *)
Definition takes_output_dir (g : generator) : bool :=
  match g with GLorenz | GDoublePendulum => false | _ => true end.

End Files.

(** ** The command-line entry point, examples/generate_animations.py *)

Module Cli.
Import Files.

(** The parsed [argparse] namespace. *)
Record cli_args := {
  pendulum : bool; lorenz : bool; mandelbrot : bool; quantum : bool;
  fourier : bool; trig : bool; all : bool;
  output : path; terms : Z }.

Definition when (b : bool) (m : M unit) : M unit := if b then m else mret tt.

(** Calling a generator function: the call itself, then what it does. *)
Definition call (run_gen : cli_target -> path -> M unit) (t : cli_target) (out : path) : M unit :=
  emit (Call t out) ;; run_gen t out.

(** The body of [main] after [parser.parse_args()]. *)
Definition main_body (run_gen : cli_target -> path -> M unit) (args : cli_args) : M unit :=
  if negb (pendulum args || lorenz args || mandelbrot args || quantum args
           || fourier args || trig args || all args)
  then emit Help
  else
    makedirs (output args) ;;
    when (all args || pendulum args)
      (log "=== Generating Double Pendulum Animation ===" ;;
       call run_gen TPendulum (output args)) ;;
    when (all args || lorenz args)
      (log "=== Generating Lorenz Attractor Animation ===" ;;
       call run_gen TLorenz (output args)) ;;
    when (all args || mandelbrot args)
      (log "=== Generating Mandelbrot Zoom Animation ===" ;;
       call run_gen TMandelbrot (output args)) ;;
    when (all args || quantum args)
      (log "=== Generating Wave Function Collapse Animation ===" ;;
       call run_gen TQuantum (output args)) ;;
    when (all args || fourier args)
      (log "=== Generating Fourier Series Visualization ===" ;;
       call run_gen (TFourier (terms args)) (output args)) ;;
    when (all args || trig args)
      (log "=== Generating Trigonometry Challenge Animation ===" ;;
       call run_gen TTrig (output args)) ;;
    log "All requested animations have been generated in the {output} directory.".

(** Importable modules and the names each one defines at top level. *)
Definition module_table := gmap string (list string).

(** The modules of the package src.simulations as they are in the
    repository (a hyphen in a file name is kept: [lorenz-attractor] is
    not importable under the name [lorenz_attractor]). *)
Definition repo_modules : module_table :=
  list_to_map [
    ("src.simulations.advanced_trig_functions_trace",
       ["create_advanced_trig_functions_animation"]);
    ("src.simulations.fourier_series", ["create_fourier_visualization"; "main"]);
    ("src.simulations.hyperbolic_paraboloid", ["create_hyperbolic_paraboloid"]);
    ("src.simulations.lorenz-attractor", ["create_lorenz_animation"; "main"]);
    ("src.simulations.mandelbrot_zoom",
       ["mandelbrot_numpy"; "create_color_palette"; "create_mandelbrot_animation"; "main"]);
    ("src.simulations.projectile_angle_challenge", ["create_projectile_challenge"]);
    ("src.simulations.sine_circle_trace", ["create_sine_circle_trace_animation"]);
    ("src.simulations.sine_cosine_circle_trace", ["create_sine_cosine_circle_animation"]);
    ("src.simulations.triangle_angle_challenge", ["create_triangle_angle_challenge"]);
    ("src.simulations.trig_challenge", ["create_trig_challenge_animation"]);
    ("src.simulations.trig_functions_circle_trace", ["create_trig_functions_animation"]);
    ("src.simulations.wave_function_collapse",
       ["create_wave_function_collapse_animation"; "main"])
  ].

(** [from m import name] *)
Definition from_import (mods : module_table) (m name : string) : M unit :=
  match mods !! m with
  | None => raise ModuleNotFoundError
  | Some names => if decide (name ∈ names) then mret tt else raise ImportError
  end.

Fixpoint import_all (mods : module_table) (l : list (string * string)) : M unit :=
  match l with
  | [] => mret tt
  | (m, name) :: l' => from_import mods m name ;; import_all mods l'
  end.

(** The imports of src/simulations/__init__.py, run by the first import
    of a submodule of the package. *)
Definition package_init_imports : list (string * string) := [
  ("src.simulations.double_pendulum", "create_double_pendulum_animation");
  ("src.simulations.lorenz_attractor", "create_lorenz_attractor_animation");
  ("src.simulations.mandelbrot_zoom", "create_mandelbrot_zoom_animation");
  ("src.simulations.wave_function_collapse", "create_wave_function_collapse_animation");
  ("src.simulations.fourier_series", "create_fourier_visualization");
  ("src.simulations.trig_challenge", "create_trig_challenge_animation");
  ("src.simulations.sine_circle_trace", "create_sine_circle_trace_animation")
].

(** The imports at the top of generate_animations.py. *)
Definition cli_imports : list (string * string) := [
  ("src.simulations.double_pendulum", "create_double_pendulum_animation");
  ("src.simulations.lorenz_attractor", "create_lorenz_attractor_animation");
  ("src.simulations.mandelbrot_zoom", "create_mandelbrot_zoom_animation");
  ("src.simulations.wave_function_collapse", "create_wave_function_collapse_animation");
  ("src.simulations.fourier_series", "create_fourier_visualization");
  ("src.simulations.trig_challenge", "create_trig_challenge_animation")
].

(** [python examples/generate_animations.py <args>]: the module's imports,
    then [main()]. *)
Definition run_cli (mods : module_table) (run_gen : cli_target -> path -> M unit)
    (args : cli_args) : M unit :=
  import_all mods package_init_imports ;;
  import_all mods cli_imports ;;
  main_body run_gen args.

End Cli.

(** ** Frame counts *)

Module Frames.
Import Files.

Record anim_params := { fps : Z; duration : option Z; frames : Z }.

(** [fps = ...; duration = ...; frames = fps * duration] *)
Definition with_duration (fps duration : Z) : anim_params :=
  {| fps := fps; duration := Some duration; frames := fps * duration |}.

(** The animation constants of each generator. hyperbolic_paraboloid sets
    [frames = 180] and passes [fps=30] to its writer only; the double
    pendulum computes [frames = int(t_max * fps)] in floating point. *)
Definition params (g : generator) : anim_params :=
  match g with
  | GMandelbrot | GLorenz | GFourier | GTrigChallenge | GWaveFunction => with_duration 30 30
  | GSineCircle | GSineCosine | GAdvancedTrig | GTrigFunctions => with_duration 60 15
  | GTriangle => with_duration 30 15
  | GProjectile => with_duration 30 10
  | GHyperbolic => {| fps := 30; duration := None; frames := 180 |}
  | GDoublePendulum =>
      {| fps := Z.of_nat Pendulum.fps; duration := None; frames := Z.of_nat Pendulum.frames |}
  end.

End Frames.

(** ** Observations on a run of a save phase *)

Module SaveSpec.
Import Files.





(** A statement that only adds to the output, whatever its outcome. *)
Definition appends {A} (c : M A) : Prop :=
  forall w, exists l, trace (snd (c w)) = trace w ++ l.


Definition empty_world : world := {| fs := ∅; trace := [] |}.

End SaveSpec.

(** ** Per-frame updates of the animations *)

(** An animation's [update(frame)] is modelled by the calls it makes on its
    artists, in order, together with the exceptions it can raise: Python's
    [IndexError] for a list or array index out of range, and matplotlib's
    [ValueError] from [Artist.set_alpha], which refuses an alpha outside
    [0, 1]. *)

Module Anim.

Inductive aexn := ValueError | IndexError.

Definition UM (C A : Type) : Type := list C -> (aexn + (A * list C))%type.

#[global] Instance UM_ret {C} : MRet (UM C) := fun A a l => inr (a, l).
#[global] Instance UM_bind {C} : MBind (UM C) := fun A B k m l =>
  match m l with
  | inl e => inl e
  | inr (a, l') => k a l'
  end.

(** One call on an artist. *)
Definition out {C} (c : C) : UM C unit := fun l => inr (tt, l ++ [c]).

Definition fail {C A} (e : aexn) : UM C A := fun _ => inl e.

(** [Artist.set_alpha(alpha)]: [if not (0 <= alpha <= 1): raise ValueError]. *)
Definition alpha_ok (v : float) : bool := (0 <=? v)%float && (v <=? 1)%float.

Definition set_alpha {C} (mk : float -> C) (v : float) : UM C unit :=
  if alpha_ok v then out (mk v) else fail ValueError.

(** [l[i]] on a Python list or 1-d array: a negative index counts from the end. *)
Definition py_index {A} (l : list A) (i : Z) : option A :=
  if (0 <=? i)%Z then l !! Z.to_nat i
  else if (- Z.of_nat (length l) <=? i)%Z then l !! Z.to_nat (Z.of_nat (length l) + i)
  else None.

Definition get {C A} (l : list A) (i : Z) : UM C A :=
  fun s => match py_index l i with
           | Some a => inr (a, s)
           | None => inl IndexError
           end.

(** [l[:i]] *)
Definition py_take {A} (l : list A) (i : Z) : list A :=
  if (0 <=? i)%Z then take (Z.to_nat i) l
  else take (Z.to_nat (Z.of_nat (length l) + i)) l.

(** Python's [min(a, b)] and [max(a, b)] on floats: the first argument
    unless the second is strictly smaller (larger). *)
Definition py_min (a b : float) : float := if (b <? a)%float then b else a.
Definition py_max (a b : float) : float := if (a <? b)%float then b else a.

(** [for i in l: body(i)] and a loop threading a value through its body. *)
Fixpoint for_ {C} (l : list nat) (body : nat -> UM C unit) : UM C unit :=
  match l with
  | [] => mret tt
  | i :: l => body i ;; for_ l body
  end.

Fixpoint fold_m {C S} (body : S -> nat -> UM C S) (l : list nat) (s : S) : UM C S :=
  match l with
  | [] => mret s
  | i :: l => s' ← body s i; fold_m body l s'
  end.

End Anim.

(** *** Lorenz attractor (lorenz-attractor.py, lines 78-220) *)

Module LorenzAnim.
Import Anim.

Inductive artist := Line | Point | TitleText | SubtitleText | EqText | Watermark.

Definition rgba := (float * float * float * float)%type.

Inductive cmd :=
  | SetData (a : artist) (xs ys : list float)
  | Set3d (a : artist) (zs : list float)
  | SetAlpha (a : artist) (v : float)
  | SetColor (a : artist) (c : rgba)
  | ViewInit (elev azim : float).

Definition colors : list rgba :=
  [(0.6, 0, 0.6, 1); (0.4, 0, 0.8, 1); (0, 0.5, 1, 1); (0, 0.8, 1, 1); (0, 1, 1, 1)]%float.

Definition total_frames : nat := 30 * 30.

(** [progress = frame / total_frames] *)
Definition progress (frame : nat) : float :=
  (float_of_nat frame / float_of_nat total_frames)%float.

(** [i = int(main_progress * num_steps); i = max(1, min(i, num_steps - 1))] *)
Definition main_index (main_progress : float) : Z :=
  Z.max 1 (Z.min (py_int (main_progress * float_of_nat Lorenz.num_steps)%float)
                 (Z.of_nat Lorenz.num_steps - 1)).

Section Update.
(** [np.sin], and the arrays [xs], [ys], [zs] of the integration. *)
Variable np_sin : float -> float.
Variables xs ys zs : list float.

Definition update (frame : nat) : UM cmd unit :=
  let progress := progress frame in
  if (progress <? 0.05)%float then
    x0 ← get xs 0; y0 ← get ys 0; out (SetData Point [x0] [y0]) ;;
    z0 ← get zs 0; out (Set3d Point [z0]) ;;
    let alpha := (progress / 0.05)%float in
    set_alpha (SetAlpha TitleText) alpha ;;
    set_alpha (SetAlpha EqText) alpha ;;
    set_alpha (SetAlpha Watermark) (alpha * 0.7)%float ;;
    out (SetData Line [] []) ;;
    out (Set3d Line [])
  else if (progress <? 0.95)%float then
    let main_progress := ((progress - 0.05) / 0.9)%float in
    let i := main_index main_progress in
    (if (0.3 <? main_progress)%float && (main_progress <? 0.7)%float then
       let subtitle_alpha := py_min 1.0 ((main_progress - 0.3) * 5)%float in
       let subtitle_alpha :=
         if (0.6 <? main_progress)%float then py_max 0 ((0.7 - main_progress) * 10)%float
         else subtitle_alpha in
       set_alpha (SetAlpha SubtitleText) subtitle_alpha
     else set_alpha (SetAlpha SubtitleText) 0) ;;
    set_alpha (SetAlpha TitleText) 1.0 ;;
    set_alpha (SetAlpha EqText) 1.0 ;;
    set_alpha (SetAlpha Watermark) 0.7 ;;
    out (SetData Line (py_take xs i) (py_take ys i)) ;;
    out (Set3d Line (py_take zs i)) ;;
    let color_idx := py_int (main_progress * float_of_nat (length colors - 1))%float in
    let color_idx := Z.min color_idx (Z.of_nat (length colors) - 1) in
    c ← get colors color_idx; out (SetColor Line c) ;;
    xi ← get xs (i - 1); yi ← get ys (i - 1); out (SetData Point [xi] [yi]) ;;
    zi ← get zs (i - 1); out (Set3d Point [zi]) ;;
    let elevation := (20 + 10 * np_sin (main_progress * 6))%float in
    let azimuth := (30 + 180 * main_progress)%float in
    out (ViewInit elevation azimuth)
  else
    let fade := py_max 0 (1.0 - (progress - 0.95) / 0.05)%float in
    out (SetData Line xs ys) ;;
    out (Set3d Line zs) ;;
    set_alpha (SetAlpha Line) fade ;;
    c ← get colors (-1); out (SetColor Line c) ;;
    xl ← get xs (-1); yl ← get ys (-1); out (SetData Point [xl] [yl]) ;;
    zl ← get zs (-1); out (Set3d Point [zl]) ;;
    set_alpha (SetAlpha Point) fade ;;
    set_alpha (SetAlpha TitleText) fade ;;
    set_alpha (SetAlpha EqText) fade ;;
    set_alpha (SetAlpha Watermark) (fade * 0.7)%float ;;
    set_alpha (SetAlpha SubtitleText) 0 ;;
    out (ViewInit 30 210).

End Update.

(** How many points of the path frame [frame] draws, for arrays of [n]
    points: none in the intro, [xs[:i]] in the main phase, all of them in
    the outro. *)
Definition trail_len (n frame : nat) : nat :=
  let p := progress frame in
  if (p <? 0.05)%float then 0
  else if (p <? 0.95)%float then Z.to_nat (main_index ((p - 0.05) / 0.9)%float)
  else n.

End LorenzAnim.

(** *** Fourier series (fourier_series.py, lines 94-257) *)

Module FourierAnim.
Import Anim Fourier.

(** [circles[i]], [lines[i]] and [dots[i]] are the artists made for term
    [i]; the others are made once. *)
Inductive artist :=
  | Circle (i : nat) | VecLine (i : nat) | Dot (i : nat)
  | Connector | Path | TraceDot | Eq1 | Eq2 | Watermark.

Inductive cmd :=
  | AddCircle (color : string)
  | AddLine (color : string)
  | AddDot (color : string)
  | SetCenter (a : artist) (x y : float)
  | SetRadius (a : artist) (r : float)
  | SetData (a : artist) (xs ys : list float)
  | SetAlpha (a : artist) (v : float).

Definition colors : list string :=
  ["cyan"; "yellow"; "magenta"; "lime"; "orange"; "pink"; "white"; "aqua";
   "gold"; "violet"; "greenyellow"; "coral"]%string.

Definition frames : nat := 30 * 30.

Definition time_stretch : float := 8.0.

Section Anim.
(** [np.sin], [np.cos], the float [%], and the [n_terms] argument. *)
Variable np_sin np_cos : float -> float.
Variable py_mod : float -> float -> float.
Variable n_terms : nat.

(** [for i in range(n_terms): Circle(..., color=colors[i]); plot(..., color=colors[i]) ...] *)
Definition setup : UM cmd unit :=
  for_ (seq 0 n_terms) (fun i =>
    c ← get colors (Z.of_nat i); out (AddCircle c) ;;
    c ← get colors (Z.of_nat i); out (AddLine c) ;;
    c ← get colors (Z.of_nat i); out (AddDot c)).

Definition circles : list artist := map Circle (seq 0 n_terms).
Definition lines : list artist := map VecLine (seq 0 n_terms).
Definition dots : list artist := map Dot (seq 0 n_terms).

(** [frame_norm = frame / frames] *)
Definition frame_norm (frame : nat) : float :=
  (float_of_nat frame / float_of_nat frames)%float.

(** [visible_terms = min(n_terms, int(n_terms * min(1.0, frame_norm * 2.5)) + 1)] *)
Definition visible_terms (frame : nat) : Z :=
  let v := (py_int (float_of_nat n_terms * py_min 1.0 (frame_norm frame * 2.5)) + 1)%Z in
  if (v <? Z.of_nat n_terms)%Z then v else Z.of_nat n_terms.

(** One pass of [for i in range(visible_terms)], threading
    [(prev_x, prev_y, connector_x, connector_y)]. *)
Definition epicycle (t : float) (st : float * float * list float * list float) (i : nat)
    : UM cmd (float * float * list float * list float) :=
  let '(prev_x, prev_y, connector_x, connector_y) := st in
  let n := i + 1 in
  let radius := (4 / (np_pi * float_of_nat (2 * n - 1)))%float in
  let freq := 2 * n - 1 in
  c ← get circles (Z.of_nat i); out (SetCenter c prev_x prev_y) ;;
  c ← get circles (Z.of_nat i); out (SetRadius c radius) ;;
  let x := (prev_x + radius * np_cos (float_of_nat freq * t))%float in
  let y := (prev_y + radius * np_sin (float_of_nat freq * t))%float in
  l ← get lines (Z.of_nat i); out (SetData l [prev_x; x] [prev_y; y]) ;;
  d ← get dots (Z.of_nat i); out (SetData d [x] [y]) ;;
  mret (x, y, connector_x ++ [x], connector_y ++ [y]).

(** One pass of [for i in range(visible_terms, n_terms)]. *)
Definition hide (i : nat) : UM cmd unit :=
  c ← get circles (Z.of_nat i); out (SetCenter c 0 0) ;;
  c ← get circles (Z.of_nat i); out (SetRadius c 0) ;;
  l ← get lines (Z.of_nat i); out (SetData l [] []) ;;
  d ← get dots (Z.of_nat i); out (SetData d [] []).

(** [x_plot = x_data[x_data <= 4*np.pi]] *)
Definition x_plot (t : float) : list float :=
  filter (fun x => (x <=? 4 * np_pi)%float = true) (linspace 0 t 1000).

Definition update (frame : nat) : UM cmd unit :=
  let frame_norm := frame_norm frame in
  (if (frame_norm <? 0.05)%float then
     let alpha := (frame_norm / 0.05)%float in
     set_alpha (SetAlpha Eq1) alpha ;; set_alpha (SetAlpha Eq2) alpha ;;
     set_alpha (SetAlpha Watermark) (alpha * 0.7)%float
   else if (0.95 <? frame_norm)%float then
     let alpha := (1 - (frame_norm - 0.95) / 0.05)%float in
     set_alpha (SetAlpha Eq1) alpha ;; set_alpha (SetAlpha Eq2) alpha ;;
     set_alpha (SetAlpha Watermark) (alpha * 0.7)%float
   else
     set_alpha (SetAlpha Eq1) 1.0 ;; set_alpha (SetAlpha Eq2) 1.0 ;;
     set_alpha (SetAlpha Watermark) 0.7) ;;
  let t := (frame_norm * time_stretch * 2 * np_pi)%float in
  let visible := visible_terms frame in
  '(prev_x, prev_y, connector_x, connector_y) ←
    fold_m (epicycle t) (seq 0 (Z.to_nat visible)) (0, 0, [0], [0])%float;
  for_ (seq (Z.to_nat visible) (n_terms - Z.to_nat visible)) hide ;;
  out (SetData Connector connector_x connector_y) ;;
  let xp := x_plot t in
  out (SetData Path xp (fourier_approx np_sin xp (Z.to_nat visible))) ;;
  out (SetData TraceDot [py_mod t (4 * np_pi)] [prev_y]).

End Anim.

End FourierAnim.

(** *** Mandelbrot zoom (mandelbrot_zoom.py, lines 88-223) *)

Module MandelbrotAnim.
Import Anim Mandelbrot.

Inductive artist := Title | Equation | DepthCounter | InfoText | Coordinates | Watermark.

Inductive cmd :=
  | Progress (n : nat)
  | SetImage (data : list (list float))
  | SetZoomText (zoom_ratio : float)
  | SetAlpha (a : artist) (v : float).

Definition frames : nat := 30 * 30.
Definition width : nat := 360.
Definition height : nat := 640.
Definition max_iterations : nat := 200.
Definition target_x : float := (-0.743643887037151)%float.
Definition target_y : float := 0.131825904205330%float.
Definition start_zoom : float := 3.5%float.

Section Anim.
(** [np.log] and [abs] on a complex, as for [mandelbrot_numpy]. *)
Variable np_log : float -> float.
Variable cabs : complex -> float.

(** [for frame in range(frames): zoom_width = zoom_widths[frame];
    zoom_values.append((zoom_width, start_zoom / zoom_width))], where
    [zoom_widths = np.geomspace(start_zoom, end_zoom, frames)]. *)
Definition make_zoom_values (zoom_widths : list float) : UM cmd (list (float * float)) :=
  fold_m (fun zoom_values frame =>
      zoom_width ← get zoom_widths (Z.of_nat frame);
      let zoom_ratio := (start_zoom / zoom_width)%float in
      mret (zoom_values ++ [(zoom_width, zoom_ratio)]))
    (seq 0 frames) [].

Definition update (zoom_values : list (float * float)) (frame : nat) : UM cmd unit :=
  (if Nat.eqb (frame mod 10) 0 then out (Progress (frame + 1)) else mret tt) ;;
  let progress := (float_of_nat frame / float_of_nat frames)%float in
  '(zoom_width, zoom_ratio) ← get zoom_values (Z.of_nat frame);
  let mandelbrot_data := mandelbrot_numpy np_log cabs height width max_iterations
                           target_x target_y zoom_width in
  out (SetImage mandelbrot_data) ;;
  out (SetZoomText zoom_ratio) ;;
  if (progress <? 0.05)%float then
    let alpha := py_min 1.0 (progress / 0.025)%float in
    set_alpha (SetAlpha Title) alpha ;;
    set_alpha (SetAlpha Equation) alpha ;;
    set_alpha (SetAlpha Watermark) (alpha * 0.7)%float ;;
    set_alpha (SetAlpha InfoText) 0 ;;
    set_alpha (SetAlpha Coordinates) 0
  else if (0.15 <? progress)%float && (progress <? 0.25)%float then
    let info_alpha := py_min 1.0 ((progress - 0.15) * 10)%float in
    set_alpha (SetAlpha InfoText) info_alpha ;;
    set_alpha (SetAlpha Coordinates) 0
  else if (0.25 <? progress)%float && (progress <? 0.35)%float then
    let info_alpha := py_max 0 (1.0 - (progress - 0.25) * 10)%float in
    let coord_alpha := py_min 1.0 ((progress - 0.25) * 10)%float in
    set_alpha (SetAlpha InfoText) info_alpha ;;
    set_alpha (SetAlpha Coordinates) coord_alpha
  else if (0.35 <? progress)%float && (progress <? 0.9)%float then
    set_alpha (SetAlpha InfoText) 0 ;;
    set_alpha (SetAlpha Coordinates) 1.0
  else if (0.9 <? progress)%float then
    let coord_alpha := py_max 0 (1.0 - (progress - 0.9) * 10)%float in
    set_alpha (SetAlpha Coordinates) coord_alpha
  else mret tt.

End Anim.

End MandelbrotAnim.


(** ** Wave function collapse (src/simulations/wave_function_collapse.py) *)

Module WaveFunction.

(** [x_min, x_max = -6, 6], [n_points = 500], [x = np.linspace(x_min, x_max, n_points)]
    and [max_n = 6] (lines 29-41). *)
Definition n_points : nat := 500.
Definition x : list float := linspace (-6) 6 n_points.



Section States.
(** [np.exp] on float64, and C's [pow] in scipy's [eval_hermite]. *)
Variable np_exp : float -> float.
Variable c_pow : float -> float -> float.





End States.









Section Superposition.
(** [np.exp] on a complex128 scalar and [np.abs] on complex128 (C's [hypot]). *)
Variable np_cexp : complex -> complex.
Variable c_abs : complex -> float.
(** The eigenstates computed at the top of the script. *)
Variable states : list (list float).




End Superposition.









End WaveFunction.

(* ===================================================================== *)
(** * Proofs *)
(* ===================================================================== *)

(** ** Mandelbrot: the pixel loops *)

Module MandelbrotFacts.
Import Mandelbrot.

Definition lookup2 (res : list (list float)) (i j : nat) : option float :=
  res !! i ≫= fun row => row !! j.

Lemma lookup2_set2 res i j v i' j' :
  lookup2 (set2 res i j v) i' j' =
  if decide ((i', j') = (i, j)) then (fun _ => v) <$> lookup2 res i j
  else lookup2 res i' j'.
Proof.
  unfold lookup2, set2.
  destruct (decide (i' = i)) as [->|Hi].
  - rewrite list_lookup_alter_eq.
    destruct (res !! i) as [row|] eqn:Hrow; simpl.
    2:{ by destruct (decide ((i, j') = (i, j))). }
    destruct (decide (j' = j)) as [->|Hj].
    + rewrite decide_True by done.
      destruct (row !! j) eqn:Hj; simpl.
      * apply list_lookup_insert_eq. apply lookup_lt_is_Some_1. by rewrite Hj.
      * apply lookup_ge_None in Hj. rewrite list_insert_ge by done. by apply lookup_ge_None.
    + rewrite decide_False by congruence. by apply list_lookup_insert_ne.
  - rewrite decide_False by congruence.
    by rewrite list_lookup_alter_ne by congruence.
Qed.

Section Loops.
Variable np_log : float -> float.
Variable cabs : complex -> float.

(** The value the code leaves at a pixel whose point is [c]. *)
Definition pixel_value (max_iters : nat) (c : complex) : float :=
  match escape_loop c czero 0 max_iters with
  | Some (k, z) => to_float32 (smooth np_log cabs k z)
  | None => 0%float
  end.

Definition cell (max_iters : nat) (x y : list float) (i j : nat) : float :=
  pixel_value max_iters (mkC (nth j x 0%float) (nth i y 0%float)).

Lemma pixel_step_other max_iters x y res i j i' j' :
  (i', j') <> (i, j) ->
  lookup2 (pixel_step np_log cabs max_iters x y res i j) i' j' = lookup2 res i' j'.
Proof.
  intros Hne. unfold pixel_step.
  destruct (escape_loop _ _ _ _) as [[k z]|]; [|done].
  rewrite lookup2_set2. by rewrite decide_False.
Qed.

Lemma pixel_step_same max_iters x y res i j :
  lookup2 res i j = Some 0%float ->
  lookup2 (pixel_step np_log cabs max_iters x y res i j) i j =
  Some (cell max_iters x y i j).
Proof.
  intros H0. unfold pixel_step, cell, pixel_value.
  destruct (escape_loop _ _ _ _) as [[k z]|]; [|done].
  rewrite lookup2_set2, decide_True, H0 by done. done.
Qed.

Lemma row_loop_spec max_iters x y i (js : list nat) res :
  NoDup js ->
  (forall i' j', (i' <> i \/ j' ∉ js) ->
     lookup2 (fold_left (fun res j => pixel_step np_log cabs max_iters x y res i j) js res) i' j'
     = lookup2 res i' j') /\
  (forall j', j' ∈ js -> lookup2 res i j' = Some 0%float ->
     lookup2 (fold_left (fun res j => pixel_step np_log cabs max_iters x y res i j) js res) i j'
     = Some (cell max_iters x y i j')).
Proof.
  revert res. induction js as [|j js IH]; intros res Hnd; simpl.
  - split; [done|]. intros j' Hj. by apply elem_of_nil in Hj.
  - apply NoDup_cons in Hnd as [Hnotin Hnd].
    destruct (IH (pixel_step np_log cabs max_iters x y res i j) Hnd) as [IHo IHs].
    split.
    + intros i' j' Hout. rewrite IHo.
      * apply pixel_step_other. intros [= -> ->].
        destruct Hout as [?|Hout]; [done|]. apply Hout. by left.
      * destruct Hout as [?|Hout]; [by left|right]. intros Hin. apply Hout. by right.
    + intros j' Hj' H0. apply elem_of_cons in Hj' as [->|Hj'].
      * rewrite IHo by (right; done). by apply pixel_step_same.
      * apply IHs; [done|]. rewrite pixel_step_other; [done|].
        intros [= ->]. by apply Hnotin.
Qed.

Lemma grid_loop_spec max_iters x y w (is : list nat) res :
  NoDup is ->
  (forall i' j', i' ∉ is ->
     lookup2 (fold_left (fun res i =>
        fold_left (fun res j => pixel_step np_log cabs max_iters x y res i j) (seq 0 w) res)
        is res) i' j' = lookup2 res i' j') /\
  (forall i' j', i' ∈ is -> j' < w -> lookup2 res i' j' = Some 0%float ->
     lookup2 (fold_left (fun res i =>
        fold_left (fun res j => pixel_step np_log cabs max_iters x y res i j) (seq 0 w) res)
        is res) i' j' = Some (cell max_iters x y i' j')).
Proof.
  revert res. induction is as [|i is IH]; intros res Hnd; simpl.
  - split; [done|]. intros i' j' Hi. by apply elem_of_nil in Hi.
  - apply NoDup_cons in Hnd as [Hnotin Hnd].
    destruct (row_loop_spec max_iters x y i (seq 0 w) res (NoDup_seq 0 w)) as [Ro Rs].
    destruct (IH (fold_left (fun res j => pixel_step np_log cabs max_iters x y res i j)
                   (seq 0 w) res) Hnd) as [IHo IHs].
    split.
    + intros i' j' Hout. rewrite IHo.
      * apply Ro. left. intros ->. apply Hout. by left.
      * intros Hin. apply Hout. by right.
    + intros i' j' Hi' Hj' H0. apply elem_of_cons in Hi' as [->|Hi'].
      * rewrite IHo by done. apply Rs; [|done].
        apply elem_of_seq. lia.
      * apply IHs; [done|done|]. rewrite Ro; [done|]. left. intros ->. by apply Hnotin.
Qed.

Lemma mandelbrot_numpy_cell h w max_iters center_x center_y zoom_width i j :
  i < h -> j < w ->
  lookup2 (mandelbrot_numpy np_log cabs h w max_iters center_x center_y zoom_width) i j =
  Some (pixel_value max_iters (grid_point h w center_x center_y zoom_width i j)).
Proof.
  intros Hi Hj. unfold mandelbrot_numpy.
  destruct (grid_loop_spec max_iters (view_x w center_x zoom_width)
              (view_y h w center_y zoom_width) w (seq 0 h)
              (replicate h (replicate w 0%float)) (NoDup_seq 0 h)) as [_ Gs].
  apply Gs.
  - apply elem_of_seq. lia.
  - done.
  - unfold lookup2. rewrite lookup_replicate_2 by done. simpl.
    by rewrite lookup_replicate_2.
Qed.

(** The escape loop follows the orbit of [0]. *)
Lemma escape_loop_first c n fuel k :
  n <= k < n + fuel ->
  (4 <=? norm2 (orbit c (S k)))%float = true ->
  (forall k', n <= k' < k -> (4 <=? norm2 (orbit c (S k')))%float = false) ->
  escape_loop c (orbit c n) n fuel = Some (k, orbit c (S k)).
Proof.
  revert n. induction fuel as [|fuel IH]; intros n Hk Hesc Hbefore; [lia|].
  simpl. change (cadd (cmul (orbit c n) (orbit c n)) c) with (orbit c (S n)).
  destruct (decide (n = k)) as [->|Hne].
  - by rewrite Hesc.
  - rewrite Hbefore by lia. apply IH; [lia|done|].
    intros k' Hk'. apply Hbefore. lia.
Qed.

Lemma escape_loop_none c n fuel :
  (forall k', n <= k' < n + fuel -> (4 <=? norm2 (orbit c (S k')))%float = false) ->
  escape_loop c (orbit c n) n fuel = None.
Proof.
  revert n. induction fuel as [|fuel IH]; intros n Hnone; [done|].
  simpl. change (cadd (cmul (orbit c n) (orbit c n)) c) with (orbit c (S n)).
  rewrite Hnone by lia. apply IH. intros k' Hk'. apply Hnone. lia.
Qed.

End Loops.
End MandelbrotFacts.

(** ** Claims on [mandelbrot_numpy] *)

Module MandelbrotClaims.
Import Mandelbrot MandelbrotFacts.

(** C1: for every pixel [(i, j)] of the [h]-by-[w] grid, with [c] the grid
    point [x[j] + y[i]*1j] of the view centered at [(center_x, center_y)]
    of width [zoom_width], if [k] is the first step (below [max_iters]) at
    which [z := z*z + c] from [0] reaches [|z|^2 >= 4.0], the code stores
    [k + 1 - log(log|z|)/log 2] (as float32) for that pixel, [z] being the
    orbit at that step. *)
Theorem mandelbrot_numpy_smooth_escape (np_log : float -> float) (cabs : complex -> float)
    (h w max_iters : nat) (center_x center_y zoom_width : float) (i j k : nat) :
  i < h -> j < w ->
  first_escape max_iters (grid_point h w center_x center_y zoom_width i j) k ->
  lookup2 (mandelbrot_numpy np_log cabs h w max_iters center_x center_y zoom_width) i j =
  Some (to_float32 (smooth np_log cabs k
          (orbit (grid_point h w center_x center_y zoom_width i j) (S k)))).
Proof.
  intros Hi Hj (Hk & Hesc & Hbefore).
  rewrite mandelbrot_numpy_cell by done. unfold pixel_value.
  change czero with (orbit (grid_point h w center_x center_y zoom_width i j) 0).
  rewrite (escape_loop_first _ 0 max_iters k); [done|lia|done|].
  intros k' Hk'. apply Hbefore. lia.
Qed.

(** Witness: pixel [c = 2 - 1j] escapes at step [0]. *)
Lemma mandelbrot_numpy_smooth_escape_witness :
  0 < 1 /\ 0 < 1 /\ first_escape 5 (grid_point 1 1 3 0 2 0 0) 0 /\
  lookup2 (mandelbrot_numpy (fun x => x) norm2 1 1 5 3 0 2) 0 0 =
  Some (to_float32 (smooth (fun x => x) norm2 0 (orbit (grid_point 1 1 3 0 2 0 0) 1))).
Proof.
  assert (Hfe : first_escape 5 (grid_point 1 1 3 0 2 0 0) 0).
  { split; [lia|split; [vm_compute; reflexivity|intros; lia]]. }
  split; [lia|split; [lia|split; [exact Hfe|]]].
  exact (mandelbrot_numpy_smooth_escape (fun x => x) norm2 1 1 5 3 0 2 0 0 0
           ltac:(lia) ltac:(lia) Hfe).
Defined.

(** C9: a pixel whose orbit stays strictly inside [|z|^2 < 4.0] for all
    [max_iters] steps keeps the initial [0.0] (not [max_iters]); a pixel
    that escapes at step [0] with [log(log|z|)/log 2 = 1] also gets [0.0],
    so the two are indistinguishable. *)
Theorem mandelbrot_numpy_interior_zero (np_log : float -> float) (cabs : complex -> float)
    (h w max_iters : nat) (center_x center_y zoom_width : float) (i j : nat) :
  i < h -> j < w ->
  let c := grid_point h w center_x center_y zoom_width i j in
  ((forall k, k < max_iters -> (4 <=? norm2 (orbit c (S k)))%float = false) ->
   lookup2 (mandelbrot_numpy np_log cabs h w max_iters center_x center_y zoom_width) i j
   = Some 0%float) /\
  (first_escape max_iters c 0 ->
   (np_log (np_log (cabs (orbit c 1))) / np_log 2)%float = 1%float ->
   lookup2 (mandelbrot_numpy np_log cabs h w max_iters center_x center_y zoom_width) i j
   = Some 0%float).
Proof.
  intros Hi Hj c. split.
  - intros Hnone. rewrite mandelbrot_numpy_cell by done. unfold pixel_value.
    change czero with (orbit c 0). fold c.
    rewrite escape_loop_none; [done|]. intros k' Hk'. apply Hnone. lia.
  - intros Hfe Hratio.
    rewrite (mandelbrot_numpy_smooth_escape np_log cabs h w max_iters
               center_x center_y zoom_width i j 0 Hi Hj Hfe).
    fold c. unfold smooth. rewrite Hratio. vm_compute. reflexivity.
Qed.

(** Witness: [c = -0.25 - 0.25j] stays bounded for 3 steps; with a
    logarithm for which the ratio is [1], [c = 2 - 1j] also maps to [0.0]. *)
Lemma mandelbrot_numpy_interior_zero_witness :
  lookup2 (mandelbrot_numpy (fun x => x) norm2 1 1 3 0 0 0.5) 0 0 = Some 0%float /\
  lookup2 (mandelbrot_numpy (fun _ => 1%float) norm2 1 1 5 3 0 2) 0 0 = Some 0%float.
Proof.
  split.
  - apply (proj1 (mandelbrot_numpy_interior_zero (fun x => x) norm2 1 1 3 0 0 0.5 0 0
             ltac:(lia) ltac:(lia))).
    intros k Hk. destruct k as [|[|[|k]]]; [vm_compute; reflexivity..|lia].
  - apply (proj2 (mandelbrot_numpy_interior_zero (fun _ => 1%float) norm2 1 1 5 3 0 2 0 0
             ltac:(lia) ltac:(lia))).
    + split; [lia|split; [vm_compute; reflexivity|intros; lia]].
    + vm_compute. reflexivity.
Defined.

End MandelbrotClaims.

(** ** Lorenz: the Euler loop *)

Module LorenzFacts.
Import Lorenz.

(** The explicit Euler recurrence, as the spec states it. *)
Fixpoint euler_spec (k : nat) : float * float * float :=
  match k with
  | 0 => (0.1%float, 0.0%float, 0.0%float)
  | S k' =>
      let '(x, y, z) := euler_spec k' in
      ((x + sigma * (y - x) * dt)%float,
       (y + (x * (rho - z) - y) * dt)%float,
       (z + (x * y - beta * z) * dt)%float)
  end.

Definition ex (k : nat) : float := fst (fst (euler_spec k)).
Definition ey (k : nat) : float := snd (fst (euler_spec k)).
Definition ez (k : nat) : float := snd (euler_spec k).

Lemma euler_spec_S k :
  ex (S k) = (ex k + sigma * (ey k - ex k) * dt)%float /\
  ey (S k) = (ey k + (ex k * (rho - ez k) - ey k) * dt)%float /\
  ez (S k) = (ez k + (ex k * ey k - beta * ez k) * dt)%float.
Proof. unfold ex, ey, ez. simpl. destruct (euler_spec k) as [[x y] z]. done. Qed.

(** After the passes [1..m] of the loop, entries [0..m] hold the
    recurrence and the rest are still zero. *)
Definition loop_inv (n m : nat) (s : points) : Prop :=
  let '(xs, ys, zs) := s in
  length xs = n /\ length ys = n /\ length zs = n /\
  forall k, k < n ->
    (k <= m -> xs !! k = Some (ex k) /\ ys !! k = Some (ey k) /\ zs !! k = Some (ez k)) /\
    (m < k -> xs !! k = Some 0%float /\ ys !! k = Some 0%float /\ zs !! k = Some 0%float).

Lemma loop_inv_init n :
  0 < n ->
  loop_inv n 0 (<[0 := 0.1%float]> (replicate n 0%float),
                <[0 := 0.0%float]> (replicate n 0%float),
                <[0 := 0.0%float]> (replicate n 0%float)).
Proof.
  intros Hn. simpl. rewrite !length_insert, !length_replicate.
  split; [done|split; [done|split; [done|]]]. intros k Hk. split.
  - intros Hk0. assert (k = 0) as -> by lia.
    rewrite !list_lookup_insert_eq by (rewrite length_replicate; lia). done.
  - intros Hk0. rewrite !list_lookup_insert_ne by lia.
    rewrite !lookup_replicate_2 by done. done.
Qed.

Lemma loop_inv_step n m s :
  S m < n -> loop_inv n m s -> loop_inv n (S m) (euler_step s (S m)).
Proof.
  destruct s as [[xs ys] zs]. intros Hm (Hx & Hy & Hz & Hk). simpl.
  destruct (Hk m ltac:(lia)) as [Hprev _].
  destruct (Hprev ltac:(lia)) as (Ex & Ey & Ez).
  rewrite Nat.sub_0_r.
  rewrite (nth_lookup_Some xs m 0%float (ex m) Ex),
          (nth_lookup_Some ys m 0%float (ey m) Ey),
          (nth_lookup_Some zs m 0%float (ez m) Ez).
  rewrite !length_insert.
  split; [done|split; [done|split; [done|]]]. intros k Hkn. split.
  - intros Hkm. destruct (decide (k = S m)) as [->|Hne].
    + rewrite !list_lookup_insert_eq by lia.
      unfold ex, ey, ez. simpl. destruct (euler_spec m) as [[x y] z]. done.
    + rewrite !list_lookup_insert_ne by lia. apply Hk; lia.
  - intros Hkm. rewrite !list_lookup_insert_ne by lia. apply Hk; lia.
Qed.

Lemma loop_inv_fold n m :
  m < n ->
  loop_inv n m (fold_left euler_step (seq 1 m)
                  (<[0 := 0.1%float]> (replicate n 0%float),
                   <[0 := 0.0%float]> (replicate n 0%float),
                   <[0 := 0.0%float]> (replicate n 0%float))).
Proof.
  induction m as [|m IH]; intros Hm.
  - by apply loop_inv_init.
  - rewrite seq_S, fold_left_app. simpl. apply loop_inv_step; [lia|].
    apply IH. lia.
Qed.

Lemma num_steps_pos : 0 < num_steps.
Proof. apply Nat.ltb_lt. reflexivity. Qed.

Lemma lorenz_integrate_spec n :
  0 < n ->
  exists xs ys zs, lorenz_integrate n = Some (xs, ys, zs) /\
    length xs = n /\ length ys = n /\ length zs = n /\
    forall k, k < n -> xs !! k = Some (ex k) /\ ys !! k = Some (ey k) /\ zs !! k = Some (ez k).
Proof.
  intros Hn. destruct n as [|n']; [lia|].
  pose proof (loop_inv_fold (S n') (S n' - 1) ltac:(lia)) as Hinv.
  unfold lorenz_integrate.
  destruct (fold_left _ _ _) as [[xs ys] zs] eqn:Hf.
  destruct Hinv as (Hx & Hy & Hz & Hk).
  exists xs, ys, zs. split; [done|].
  split; [done|split; [done|split; [done|]]].
  intros k Hkn. apply Hk; [done|lia].
Qed.

End LorenzFacts.

(** ** Pendulum: array shapes *)

Module PendulumFacts.
Import Pendulum.

Lemma np_binop_same_length f (a b : list float) :
  length a = length b ->
  exists r, np_binop f a b = Some r /\ length r = length a.
Proof.
  intros Hl. unfold np_binop. rewrite decide_True by done.
  eexists. split; [done|]. rewrite length_zip_with. lia.
Qed.

Lemma pendulum_xy_lengths np_sin np_cos odeint t :
  length (odeint t) = length t ->
  exists x1 y1 x2 y2, pendulum_xy np_sin np_cos odeint t = Some (x1, y1, x2, y2) /\
    length x1 = length t /\ length y1 = length t /\
    length x2 = length t /\ length y2 = length t.
Proof.
  intros Hode. unfold pendulum_xy, column.
  set (sol := odeint t) in *.
  destruct (np_binop_same_length PrimFloat.add
     (map (fun a => L1 * np_sin a)%float (map (fun row => nth 0 row 0%float) sol))
     (map (fun a => L2 * np_sin a)%float (map (fun row => nth 2 row 0%float) sol)))
    as (x2 & Hx2 & Lx2); [by rewrite !length_map|].
  destruct (np_binop_same_length PrimFloat.sub
     (map (fun a => (- L1) * np_cos a)%float (map (fun row => nth 0 row 0%float) sol))
     (map (fun a => L2 * np_cos a)%float (map (fun row => nth 2 row 0%float) sol)))
    as (y2 & Hy2 & Ly2); [by rewrite !length_map|].
  rewrite Hx2, Hy2. do 4 eexists. split; [done|].
  rewrite ?length_map in *. lia.
Qed.

End PendulumFacts.

(** ** Fourier: the series loop and the square wave *)

Module FourierFacts.
Import Fourier.

Section Facts.
Variable np_sin : float -> float.
Variable py_mod : float -> float -> float.

Lemma fourier_fold_lookup (x : list float) (ns : list nat) (r : list float) i xi a :
  length r = length x -> x !! i = Some xi -> r !! i = Some a ->
  fold_left (fun result n => zip_with PrimFloat.add result (fourier_term np_sin n x)) ns r !! i
  = Some (fold_left (fun acc n =>
      (acc + 4 / (np_pi * float_of_nat (2 * n - 1)) * np_sin (float_of_nat (2 * n - 1) * xi))%float)
      ns a).
Proof.
  revert r a. induction ns as [|n ns IH]; intros r a Hl Hx Hr; simpl; [done|].
  apply IH.
  - rewrite length_zip_with, Hl. unfold fourier_term. rewrite length_map. lia.
  - done.
  - rewrite lookup_zip_with, Hr. simpl. unfold fourier_term.
    rewrite list_lookup_fmap, Hx. done.
Qed.

Lemma fourier_fold_length (x : list float) (ns : list nat) (r : list float) :
  length r = length x ->
  length (fold_left (fun result n => zip_with PrimFloat.add result (fourier_term np_sin n x)) ns r)
  = length x.
Proof.
  revert r. induction ns as [|n ns IH]; intros r Hl; simpl; [done|].
  apply IH. rewrite length_zip_with, Hl. unfold fourier_term. rewrite length_map. lia.
Qed.

Definition square_value (v : float) : float :=
  if (py_mod v (2 * np_pi) <? np_pi)%float then 1%float else (-1)%float.

Lemma square_fold_spec (l : list float) (s : nat) (r : list float) :
  s + length l <= length r ->
  length (fold_left (fun result '(i, val) =>
      if (py_mod val (2 * np_pi) <? np_pi)%float then <[i := 1%float]> result
      else <[i := (-1)%float]> result) (zip (seq s (length l)) l) r) = length r /\
  forall k, k < length r ->
    fold_left (fun result '(i, val) =>
      if (py_mod val (2 * np_pi) <? np_pi)%float then <[i := 1%float]> result
      else <[i := (-1)%float]> result) (zip (seq s (length l)) l) r !! k =
    if decide (s <= k < s + length l) then square_value <$> l !! (k - s) else r !! k.
Proof.
  revert s r. induction l as [|v l IH]; intros s r Hlen; simpl in *.
  - split; [done|]. intros k Hk. by rewrite decide_False by lia.
  - assert (Hstep : length ((if (py_mod v (2 * np_pi) <? np_pi)%float
                             then <[s := 1%float]> r else <[s := (-1)%float]> r)) = length r)
      by (destruct (_ <? _)%float; apply length_insert).
    destruct (IH (S s) (if (py_mod v (2 * np_pi) <? np_pi)%float
                        then <[s := 1%float]> r else <[s := (-1)%float]> r)
                ltac:(rewrite Hstep; lia)) as [IHl IHk].
    rewrite Hstep in IHl, IHk. split; [done|].
    intros k Hk. rewrite IHk by done.
    destruct (decide (S s <= k < S s + length l)) as [Hin|Hout].
    + rewrite decide_True by lia.
      replace (k - s) with (S (k - S s)) by lia. done.
    + destruct (decide (k = s)) as [->|Hne].
      * rewrite decide_True by lia. rewrite Nat.sub_diag. simpl.
        unfold square_value.
        destruct (_ <? _)%float; apply list_lookup_insert_eq; lia.
      * rewrite decide_False by lia.
        destruct (_ <? _)%float; by apply list_lookup_insert_ne.
Qed.

End Facts.
End FourierFacts.

(** ** Claims on the numeric kernels *)

Module KernelClaims.
Import Lorenz LorenzFacts Pendulum PendulumFacts Fourier FourierFacts.

(** C3: the Lorenz generator integrates by explicit Euler with
    [sigma = 10], [rho = 28], [beta = 8/3], [dt = 0.01], from
    [(0.1, 0.0, 0.0)]: for every [i] in [1 .. num_steps-1],
    [xs[i] = xs[i-1] + sigma*(ys[i-1]-xs[i-1])*dt],
    [ys[i] = ys[i-1] + (xs[i-1]*(rho-zs[i-1])-ys[i-1])*dt] and
    [zs[i] = zs[i-1] + (xs[i-1]*ys[i-1]-beta*zs[i-1])*dt]. *)
Theorem lorenz_explicit_euler :
  sigma = 10%float /\ rho = 28%float /\ beta = (8 / 3)%float /\ dt = 0.01%float /\
  exists xs ys zs, lorenz_points = Some (xs, ys, zs) /\
    xs !! 0 = Some 0.1%float /\ ys !! 0 = Some 0.0%float /\ zs !! 0 = Some 0.0%float /\
    forall i, 1 <= i < num_steps ->
      exists x y z, xs !! (i - 1) = Some x /\ ys !! (i - 1) = Some y /\ zs !! (i - 1) = Some z /\
        xs !! i = Some (x + sigma * (y - x) * dt)%float /\
        ys !! i = Some (y + (x * (rho - z) - y) * dt)%float /\
        zs !! i = Some (z + (x * y - beta * z) * dt)%float.
Proof.
  do 4 (split; [reflexivity|]).
  destruct (lorenz_integrate_spec num_steps num_steps_pos)
    as (xs & ys & zs & Hpts & _ & _ & _ & Hk).
  exists xs, ys, zs. split; [unfold lorenz_points; exact Hpts|].
  destruct (Hk 0 num_steps_pos) as (X0 & Y0 & Z0).
  split; [exact X0|split; [exact Y0|split; [exact Z0|]]].
  intros i Hi.
  destruct (Hk (i - 1) ltac:(lia)) as (Xp & Yp & Zp).
  destruct (Hk i ltac:(lia)) as (Xi & Yi & Zi).
  exists (ex (i - 1)), (ey (i - 1)), (ez (i - 1)).
  split; [done|split; [done|split; [done|]]].
  rewrite Xi, Yi, Zi.
  destruct i as [|i]; [lia|]. rewrite Nat.sub_succ, Nat.sub_0_r.
  destruct (euler_spec_S i) as (E1 & E2 & E3). rewrite E1, E2, E3.
  split; [reflexivity|split; reflexivity].
Qed.

(** C4: for every array [x] of samples and every [n_terms],
    [fourier_approx(x, n_terms)] is, sample by sample, the partial sum over
    [n = 1..n_terms] of [4/(pi*(2n-1)) * sin((2n-1)*x)] (accumulated in
    loop order), and [square_wave(x)] is [1] where [x mod 2*pi < pi] and
    [-1] elsewhere. *)
Theorem fourier_approx_square_wave (np_sin : float -> float) (py_mod : float -> float -> float)
    (x : list float) (n_terms i : nat) (xi : float) :
  x !! i = Some xi ->
  length (fourier_approx np_sin x n_terms) = length x /\
  fourier_approx np_sin x n_terms !! i = Some (partial_sum np_sin n_terms xi) /\
  length (square_wave py_mod x) = length x /\
  square_wave py_mod x !! i =
    Some (if (py_mod xi (2 * np_pi) <? np_pi)%float then 1%float else (-1)%float).
Proof.
  intros Hx. assert (Hi : i < length x) by (by eapply lookup_lt_Some).
  split; [|split; [|split]].
  - apply fourier_fold_length. apply length_replicate.
  - apply fourier_fold_lookup; [apply length_replicate|done|].
    by apply lookup_replicate_2.
  - unfold square_wave.
    destruct (square_fold_spec py_mod x 0 (replicate (length x) 0%float))
      as [Hl _]; [rewrite length_replicate; lia|].
    by rewrite Hl, length_replicate.
  - unfold square_wave.
    destruct (square_fold_spec py_mod x 0 (replicate (length x) 0%float))
      as [_ Hk]; [rewrite length_replicate; lia|].
    rewrite Hk by (rewrite length_replicate; lia).
    rewrite decide_True by lia. rewrite Nat.sub_0_r, Hx. done.
Qed.

(** Witness: the second of the samples [0.5; 4.0] with three terms. *)
Lemma fourier_approx_square_wave_witness :
  [0.5%float; 4.0%float] !! 1 = Some 4.0%float /\
  fourier_approx (fun v => v) [0.5%float; 4.0%float] 3 !! 1 =
    Some (partial_sum (fun v => v) 3 4.0%float).
Proof.
  split; [reflexivity|].
  exact (proj1 (proj2 (fourier_approx_square_wave (fun v => v) (fun a _ => a)
           [0.5%float; 4.0%float] 3 1 4.0%float eq_refl))).
Defined.

(** C5: the Lorenz arrays [xs], [ys], [zs] all have length [num_steps], and
    the double pendulum's [x1], [y1], [x2], [y2] all have the length of the
    time grid [t] (given that [odeint] returns one row per time of [t]). *)
Theorem trajectory_lengths (np_sin np_cos : float -> float)
    (odeint : list float -> list (list float))
    (Hode : forall t, length (odeint t) = length t) :
  (exists xs ys zs, Lorenz.lorenz_points = Some (xs, ys, zs) /\
     length xs = num_steps /\ length ys = num_steps /\ length zs = num_steps) /\
  (exists x1 y1 x2 y2, pendulum_xy np_sin np_cos odeint t_grid = Some (x1, y1, x2, y2) /\
     length x1 = length t_grid /\ length y1 = length t_grid /\
     length x2 = length t_grid /\ length y2 = length t_grid).
Proof.
  split.
  - destruct (lorenz_integrate_spec num_steps num_steps_pos)
      as (xs & ys & zs & Hpts & Hx & Hy & Hz & _).
    exists xs, ys, zs. unfold Lorenz.lorenz_points.
    split; [exact Hpts|split; [exact Hx|split; [exact Hy|exact Hz]]].
  - apply pendulum_xy_lengths. apply Hode.
Qed.

(** Witness: an [odeint] returning the initial state at every time. *)
Lemma trajectory_lengths_witness :
  (forall t : list float, length (map (fun _ => [0%float; 0%float; 0%float; 0%float]) t)
                          = length t) /\
  exists x1 y1 x2 y2,
    pendulum_xy (fun v => v) (fun v => v) (map (fun _ => [0%float; 0%float; 0%float; 0%float]))
      t_grid = Some (x1, y1, x2, y2) /\ length x1 = length t_grid.
Proof.
  assert (H : forall t : list float,
            length (map (fun _ => [0%float; 0%float; 0%float; 0%float]) t) = length t)
    by (intros; apply length_map).
  split; [exact H|].
  destruct (proj2 (trajectory_lengths (fun v => v) (fun v => v) _ H))
    as (x1 & y1 & x2 & y2 & Hxy & L1' & _).
  exists x1, y1, x2, y2. split; [exact Hxy|exact L1'].
Defined.

End KernelClaims.

(* --------------------------------------------------------------------- *)
(** ** Files, writers and saves *)

Module FilesFacts.
Import Files.

Lemma bind_ok {A B} (m : M A) (k : A -> M B) w a w' :
  m w = (Ok a, w') -> (m ≫= k) w = k a w'.
Proof. intros H. unfold mbind, M_bind. rewrite H. reflexivity. Qed.

Lemma bind_exc {A B} (m : M A) (k : A -> M B) w e w' :
  m w = (Exc e, w') -> (m ≫= k) w = (Exc e, w').
Proof. intros H. unfold mbind, M_bind. rewrite H. reflexivity. Qed.




(** Adding an event to the output. *)
Definition tick (w : world) (ev : event) : world :=
  {| fs := fs w; trace := trace w ++ [ev] |}.

Lemma emit_eq ev w : emit ev w = (Ok tt, tick w ev).
Proof. reflexivity. Qed.


Lemma ret_eq {A} (a : A) w : (mret a : M A) w = (Ok a, w).
Proof. reflexivity. Qed.

(** *** [os.makedirs] *)

Lemma makedirs_go_dir prefix rest m m' :
  makedirs_go prefix rest m = Ok m' -> rest <> [] -> m' !! (prefix ++ rest) = Some Dir.
Proof.
  revert prefix m. induction rest as [|c rest IH]; intros prefix m H Hne; [done|].
  simpl in H.
  replace (prefix ++ c :: rest) with ((prefix ++ [c]) ++ rest)
    by (rewrite <- app_assoc; reflexivity).
  destruct rest as [|c' rest'].
  - rewrite app_nil_r. simpl in H.
    destruct (m !! (prefix ++ [c])) as [[|]|] eqn:E; inversion H; subst.
    + exact E.
    + apply lookup_insert_eq.
  - destruct (m !! (prefix ++ [c])) as [[|]|] eqn:E; [| discriminate |];
      (eapply IH; [exact H | discriminate]).
Qed.

Lemma makedirs_fs_dir p m m' :
  makedirs_fs p m = Ok m' -> m' !! p = Some Dir.
Proof.
  destruct p as [|c p]; [discriminate|]. intros H.
  apply (makedirs_go_dir [] (c :: p) m m' H). discriminate.
Qed.

Lemma makedirs_fs_nonempty p m m' : makedirs_fs p m = Ok m' -> p <> [].
Proof. destruct p; [discriminate|]. intros _; discriminate. Qed.

Lemma makedirs_go_existing prefix rest m :
  (forall r1 r2, rest = r1 ++ r2 -> r1 <> [] -> m !! (prefix ++ r1) = Some Dir) ->
  makedirs_go prefix rest m = Ok m.
Proof.
  revert prefix. induction rest as [|c rest IH]; intros prefix H; [reflexivity|].
  simpl. rewrite (H [c] rest) by (reflexivity || discriminate).
  apply IH. intros r1 r2 -> Hr1.
  rewrite <- app_assoc. apply (H (c :: r1) r2); [reflexivity|discriminate].
Qed.

Lemma makedirs_go_total prefix rest m :
  (forall r1 r2, rest = r1 ++ r2 -> r1 <> [] -> m !! (prefix ++ r1) <> Some File) ->
  exists m', makedirs_go prefix rest m = Ok m'.
Proof.
  revert prefix m. induction rest as [|c rest IH]; intros prefix m H; [by exists m|].
  simpl. pose proof (H [c] rest eq_refl ltac:(discriminate)) as Hc.
  destruct (m !! (prefix ++ [c])) as [[|]|] eqn:E; [| congruence |].
  - apply IH. intros r1 r2 -> Hr1.
    rewrite <- app_assoc. apply (H (c :: r1) r2); [reflexivity|discriminate].
  - apply IH. intros r1 r2 -> Hr1.
    rewrite lookup_insert_ne.
    + rewrite <- app_assoc. apply (H (c :: r1) r2); [reflexivity|discriminate].
    + intros Heq. apply (f_equal length) in Heq.
      destruct r1 as [|x r1]; [congruence|].
      rewrite !length_app in Heq. simpl in Heq. lia.
Qed.


Lemma makedirs_exc p w e :
  makedirs_fs p (fs w) = Exc e -> makedirs p w = (Exc e, tick w (MakeDirs p)).
Proof. intros H. unfold makedirs. rewrite H. reflexivity. Qed.

(** *** Saving *)



(** *** The save phases of the generators *)

Ltac run_ok H := erewrite bind_ok by H; cbv beta.
Ltac run_exc H := erewrite bind_exc by H.











(** *** The undrawable Fourier figure and the writer given by name *)




End FilesFacts.

(* --------------------------------------------------------------------- *)
(** ** Writer fallbacks *)

Module SaveClaims.
Import Files SaveSpec FilesFacts.









End SaveClaims.

(* --------------------------------------------------------------------- *)
(** ** The command line and the output directory *)

Module CliFacts.
Import Files SaveSpec FilesFacts Cli.

Lemma appends_bind {A B} (m : M A) (k : A -> M B) :
  appends m -> (forall a, appends (k a)) -> appends (m ≫= k).
Proof.
  intros Hm Hk w. unfold mbind, M_bind.
  destruct (Hm w) as [l1 H1]. destruct (m w) as [[a|e] w1] eqn:E; simpl in H1.
  - destruct (Hk a w1) as [l2 H2]. exists (l1 ++ l2). rewrite H2, H1, app_assoc. reflexivity.
  - exists l1. exact H1.
Qed.

Lemma appends_try body c h :
  appends body -> (forall e, appends (h e)) -> appends (try_except body c h).
Proof.
  intros Hb Hh w. unfold try_except.
  destruct (Hb w) as [l1 H1]. destruct (body w) as [[u|e] w1] eqn:E; simpl in H1.
  - exists l1. exact H1.
  - destruct (c e).
    + destruct (Hh e w1) as [l2 H2]. exists (l1 ++ l2). rewrite H2, H1, app_assoc. reflexivity.
    + exists l1. exact H1.
Qed.

Lemma appends_emit ev : appends (emit ev).
Proof. intros w. exists [ev]. reflexivity. Qed.

Lemma appends_log msg : appends (log msg).
Proof. apply appends_emit. Qed.

Lemma appends_ret {A} (a : A) : appends (mret a : M A).
Proof. intros w. exists []. rewrite app_nil_r. reflexivity. Qed.

Lemma appends_makedirs p : appends (makedirs p).
Proof. intros w. exists [MakeDirs p]. unfold makedirs. destruct (makedirs_fs p (fs w)); reflexivity. Qed.

Lemma appends_save env p wr : appends (save env p wr).
Proof.
  intros w. exists [Save p wr]. unfold save.
  destruct (env wr); [reflexivity|].
  destruct (removelast p); [reflexivity|].
  case_decide; reflexivity.
Qed.

Lemma appends_save_failing env p wr err : appends (save_failing env p wr err).
Proof. intros w. exists [Save p wr]. unfold save_failing. destruct (env wr); reflexivity. Qed.

Lemma appends_when b c : appends c -> appends (when b c).
Proof. intros H. destruct b; [exact H|apply appends_ret]. Qed.

Create HintDb appends.
#[local] Hint Resolve appends_emit appends_log appends_ret appends_makedirs appends_save
  appends_save_failing appends_when : appends.

Ltac solve_appends :=
  repeat first
    [ progress cbv beta
    | apply appends_bind; [|intros]
    | apply appends_try; [|intros]
    | apply appends_when
    | solve [eauto with appends] ].

Lemma appends_call run_gen t out :
  (forall t o, appends (run_gen t o)) -> appends (call run_gen t out).
Proof. intros H. unfold call. solve_appends. Qed.

(** A statement starting with [os.makedirs(p)] prints that first. *)
Lemma makedirs_first {B} p (k : unit -> M B) w :
  (forall u, appends (k u)) ->
  exists l, trace (snd ((makedirs p ≫= k) w)) = trace w ++ MakeDirs p :: l.
Proof.
  intros Hk. unfold mbind, M_bind, makedirs.
  destruct (makedirs_fs p (fs w)) as [m|e]; simpl.
  - destruct (Hk tt {| fs := m; trace := trace w ++ [MakeDirs p] |}) as [l Hl].
    exists l. rewrite Hl. simpl. rewrite <- app_assoc. reflexivity.
  - exists []. reflexivity.
Qed.

Lemma gen_save_makedirs_first env g out :
  takes_output_dir g = true ->
  exists k, gen_save env g out = makedirs out ≫= k /\ forall u, appends (k u).
Proof.
  destruct g; simpl; intros H; try discriminate;
    (eexists; split; [reflexivity|intros u; solve_appends]).
Qed.

Lemma repo_no_double_pendulum :
  repo_modules !! "src.simulations.double_pendulum" = None.
Proof. reflexivity. Qed.

Lemma from_import_pure mods m n w :
  from_import mods m n w = (Ok tt, w) \/ exists e, from_import mods m n w = (Exc e, w).
Proof.
  unfold from_import. destruct (mods !! m); [|eauto].
  case_decide; eauto.
Qed.

Lemma import_all_fail mods l1 m n l2 w e :
  from_import mods m n w = (Exc e, w) ->
  exists e', import_all mods (l1 ++ (m, n) :: l2) w = (Exc e', w).
Proof.
  intros H. induction l1 as [|[m1 n1] l1 IH]; simpl.
  - exists e. run_exc ltac:(exact H). reflexivity.
  - destruct (from_import_pure mods m1 n1 w) as [H1|[e1 H1]].
    + run_ok ltac:(exact H1). exact IH.
    + exists e1. run_exc ltac:(exact H1). reflexivity.
Qed.

(** Even with the missing modules in place, the CLI could not start:
    mandelbrot_zoom defines [create_mandelbrot_animation], not the
    [create_mandelbrot_zoom_animation] the package imports. *)
Lemma mandelbrot_import_fails (mods : module_table) run_gen args w :
  mods !! "src.simulations.mandelbrot_zoom" = repo_modules !! "src.simulations.mandelbrot_zoom" ->
  exists e, run_cli mods run_gen args w = (Exc e, w).
Proof.
  intros Hm. unfold run_cli.
  assert (Hf : from_import mods "src.simulations.mandelbrot_zoom"
                 "create_mandelbrot_zoom_animation" w = (Exc ImportError, w)).
  { unfold from_import. rewrite Hm. reflexivity. }
  destruct (import_all_fail mods (take 2 package_init_imports) _ _
              (drop 3 package_init_imports) w ImportError Hf) as [e He].
  exists e. run_exc ltac:(exact He). reflexivity.
Qed.

End CliFacts.

Module CliClaims.
Import Files SaveSpec FilesFacts Cli CliFacts.

(** C6: the CLI never reaches its flag dispatch. For every argument set,
    running examples/generate_animations.py raises [ModuleNotFoundError]
    while importing (src/simulations/__init__.py imports the modules
    double_pendulum and lorenz_attractor, which the package does not
    have), before [main] prints help, makes a directory or calls any
    generator: the output is unchanged. *)
Theorem cli_import_fails (run_gen : cli_target -> path -> M unit) (args : cli_args) (w : world) :
  run_cli repo_modules run_gen args w = (Exc ModuleNotFoundError, w).
Proof.
  unfold run_cli.
  run_exc ltac:(cbn [import_all package_init_imports];
                run_exc ltac:(unfold from_import; rewrite repo_no_double_pendulum; reflexivity);
                reflexivity).
  reflexivity.
Qed.

(** C7: the output directory policy. [os.makedirs(p, exist_ok=True)]
    (a) leaves [p] a directory when it returns, (b) changes nothing and
    does not raise when [p] and its parents are already directories, and
    (c) does not raise when no file is in the way; (d) [main] makes the
    output directory before anything else once a selection flag is set,
    and (e) every generator taking [output_dir] makes it before any save. *)
Theorem output_dir_created :
  (forall out m m', makedirs_fs out m = Ok m' -> m' !! out = Some Dir) /\
  (forall out m, out <> [] ->
     (forall r1 r2, out = r1 ++ r2 -> r1 <> [] -> m !! r1 = Some Dir) ->
     makedirs_fs out m = Ok m) /\
  (forall out m, out <> [] ->
     (forall r1 r2, out = r1 ++ r2 -> r1 <> [] -> m !! r1 <> Some File) ->
     exists m', makedirs_fs out m = Ok m') /\
  (forall run_gen args w,
     (forall t o, appends (run_gen t o)) ->
     (pendulum args || lorenz args || mandelbrot args || quantum args
      || fourier args || trig args || all args) = true ->
     exists l, trace (snd (main_body run_gen args w)) = trace w ++ MakeDirs (output args) :: l) /\
  (forall env g out w, takes_output_dir g = true ->
     exists l, trace (snd (gen_save env g out w)) = trace w ++ MakeDirs out :: l).
Proof.
  split; [|split; [|split; [|split]]].
  - exact makedirs_fs_dir.
  - intros out m Hne H. destruct out as [|c out]; [contradiction|].
    apply makedirs_go_existing. exact H.
  - intros out m Hne H. destruct out as [|c out]; [contradiction|].
    apply makedirs_go_total. exact H.
  - intros run_gen args w Hrun Hflag. unfold main_body. rewrite Hflag. simpl negb. cbv iota.
    apply makedirs_first. intros u.
    repeat first
      [ progress cbv beta
      | apply appends_bind; [|intros]
      | apply appends_when
      | apply appends_call; exact Hrun
      | apply appends_log
      | apply appends_emit
      | apply Hrun ].
  - intros env g out w Hg. destruct (gen_save_makedirs_first env g out Hg) as (k & -> & Hk).
    apply makedirs_first. exact Hk.
Qed.

(** Witness: an existing directory "output", and the CLI with only
    [--fourier] and generators that do nothing. *)
Lemma output_dir_created_witness :
  makedirs_fs ["output"] (<[["output"] := Dir]> ∅) = Ok (<[["output"] := Dir]> ∅) /\
  exists l,
    trace (snd (main_body (fun _ _ => mret tt)
                  {| pendulum := false; lorenz := false; mandelbrot := false;
                     quantum := false; fourier := true; trig := false; all := false;
                     output := ["output"]; terms := 8 |} empty_world))
    = trace empty_world ++ MakeDirs ["output"] :: l.
Proof.
  destruct output_dir_created as (_ & Hb & _ & Hd & _). split.
  - apply Hb; [discriminate|].
    intros r1 r2 Hr Hr1. destruct r1 as [|x r1]; [contradiction|].
    destruct r1; [|destruct r2; discriminate].
    simpl in Hr. injection Hr as <- _. reflexivity.
  - apply Hd; [|reflexivity]. intros t o. apply appends_ret.
Defined.

End CliClaims.

(* --------------------------------------------------------------------- *)
(** ** Frame counts and the pendulum's time grid *)

Module FrameFacts.

Lemma lookup_map_seq_lt (f : nat -> float) k n i :
  i < n -> map f (seq k n) !! i = Some (f (k + i)).
Proof.
  revert k i. induction n as [|n IH]; intros k i Hi; [lia|].
  destruct i as [|i]; simpl.
  - rewrite Nat.add_0_r. reflexivity.
  - rewrite IH by lia. do 2 f_equal. lia.
Qed.

Lemma length_linspace start stop n : length (linspace start stop n) = n.
Proof.
  destruct n as [|[|d]]; [reflexivity|reflexivity|].
  unfold linspace. rewrite length_insert, length_map, length_seq. reflexivity.
Qed.

Lemma linspace_lookup start stop n i :
  1 < n -> i < n - 1 ->
  linspace start stop n !! i
  = Some (start + float_of_nat i * ((stop - start) / float_of_nat (n - 1)))%float.
Proof.
  intros Hn Hi. destruct n as [|[|d]]; [lia|lia|].
  unfold linspace. rewrite list_lookup_insert_ne by lia.
  rewrite lookup_map_seq_lt by lia. simpl. rewrite ?Nat.sub_0_r. reflexivity.
Qed.

Lemma linspace_last start stop n :
  1 < n -> linspace start stop n !! (n - 1) = Some stop.
Proof.
  intros Hn. destruct n as [|[|d]]; [lia|lia|].
  unfold linspace. simpl (S (S d) - 1). rewrite ?Nat.sub_0_r.
  apply list_lookup_insert_eq. rewrite length_map, length_seq. lia.
Qed.

Lemma pendulum_frames : Pendulum.frames = 900.
Proof. reflexivity. Qed.

End FrameFacts.

Module FrameClaims.
Import Files Frames FrameFacts.

(** C8: frame counts. Every generator that sets [fps] and [duration]
    requests [frames = fps * duration] (900 for the Mandelbrot zoom and the
    Fourier visualization); the double pendulum requests
    [int(t_max * fps) = 900 = 30 * 30] frames, and its grid
    [t = np.linspace(0, t_max, frames)] has exactly that many samples, from
    [t[0] = 0] to [t[899] = 30], sample [i] being [0 + i * (30 / 899)], all
    in [0, 30]. *)
Theorem frame_counts :
  (forall g, match duration (params g) with
             | Some d => frames (params g) = (fps (params g) * d)%Z
             | None => True
             end) /\
  frames (params GMandelbrot) = 900%Z /\ frames (params GFourier) = 900%Z /\
  Pendulum.frames = 900 /\
  frames (params GDoublePendulum) = (fps (params GDoublePendulum) * 30)%Z /\
  length Pendulum.t_grid = Pendulum.frames /\
  Pendulum.t_grid !! 0 = Some 0%float /\
  Pendulum.t_grid !! 899 = Some Pendulum.t_max /\
  (forall i, i < 899 ->
     Pendulum.t_grid !! i
     = Some (0 + float_of_nat i * ((Pendulum.t_max - 0) / float_of_nat 899))%float) /\
  Forall (fun x => (0 <=? x)%float && (x <=? Pendulum.t_max)%float = true) Pendulum.t_grid.
Proof.
  split; [intros g; destruct g; reflexivity|].
  split; [reflexivity|]. split; [reflexivity|].
  split; [exact pendulum_frames|].
  split; [reflexivity|].
  split; [apply length_linspace|].
  unfold Pendulum.t_grid. rewrite pendulum_frames.
  split; [rewrite (linspace_lookup _ _ 900 0) by lia; vm_compute; reflexivity|].
  split; [apply (linspace_last _ _ 900); lia|].
  split; [intros i Hi; apply (linspace_lookup _ _ 900 i); lia|].
  apply Forall_forall. intros x Hx.
  assert (Hall : forallb (fun x => (0 <=? x)%float && (x <=? Pendulum.t_max)%float)
                   (linspace 0 Pendulum.t_max 900) = true) by (vm_compute; reflexivity).
  rewrite forallb_forall in Hall. apply Hall. apply list_elem_of_In. exact Hx.
Qed.

(** Witness: sample 450 of the pendulum grid. *)
Lemma frame_counts_witness :
  450 < 899 /\
  Pendulum.t_grid !! 450
  = Some (0 + float_of_nat 450 * ((Pendulum.t_max - 0) / float_of_nat 899))%float.
Proof.
  split; [lia|].
  destruct frame_counts as (_ & _ & _ & _ & _ & _ & _ & _ & H & _).
  apply H. lia.
Defined.

End FrameClaims.

(** ** Per-frame updates: running the artist calls *)

Module AnimFacts.
Import Anim.

Lemma bind_out {C A} (c : C) (k : unit -> UM C A) l : (out c ≫= k) l = k tt (l ++ [c]).
Proof. reflexivity. Qed.

Lemma bind_get {C A B} (xs : list B) i (k : B -> UM C A) l :
  (get xs i ≫= k) l = match py_index xs i with Some a => k a l | None => inl IndexError end.
Proof. unfold get, mbind, UM_bind. by destruct (py_index xs i). Qed.

Lemma bind_set_alpha {C A} (mk : float -> C) v (k : unit -> UM C A) l :
  (set_alpha mk v ≫= k) l = if alpha_ok v then k tt (l ++ [mk v]) else inl ValueError.
Proof. unfold set_alpha. by destruct (alpha_ok v). Qed.

Lemma bind_ret {C A B} (a : A) (k : A -> UM C B) l : (mret a ≫= k) l = k a l.
Proof. reflexivity. Qed.

Lemma bind_assoc {C A B D} (m : UM C A) (k1 : A -> UM C B) (k2 : B -> UM C D) l :
  ((m ≫= k1) ≫= k2) l = (m ≫= fun a => k1 a ≫= k2) l.
Proof. unfold mbind, UM_bind. by destruct (m l) as [|[]]. Qed.

Lemma py_index_none {A} (l : list A) i :
  py_index l i = None -> (i < - Z.of_nat (length l) \/ Z.of_nat (length l) <= i)%Z.
Proof.
  unfold py_index. destruct (Z.leb_spec 0 i).
  - intros Hn. apply lookup_ge_None in Hn. lia.
  - destruct (Z.leb_spec (- Z.of_nat (length l)) i); [|lia].
    intros Hn. apply lookup_ge_None in Hn. lia.
Qed.

Lemma py_index_nonneg {A} (l : list A) i a :
  (0 <= i)%Z -> py_index l i = Some a -> l !! Z.to_nat i = Some a.
Proof. intros Hi. unfold py_index. by rewrite (proj2 (Z.leb_le 0 i) Hi). Qed.

Lemma py_index_last {A} (l : list A) a :
  py_index l (-1) = Some a -> length l <> 0 /\ l !! (length l - 1) = Some a.
Proof.
  unfold py_index. simpl. destruct (Z.leb_spec (- Z.of_nat (length l)) (-1)); [|discriminate].
  intros Ha. split; [lia|]. rewrite <- Ha. f_equal. lia.
Qed.

Lemma py_take_nonneg {A} (l : list A) i : (0 <= i)%Z -> py_take l i = take (Z.to_nat i) l.
Proof. intros Hi. unfold py_take. by rewrite (proj2 (Z.leb_le 0 i) Hi). Qed.

(** A check over the [frames] frames an animation renders. *)
Lemma forallb_frames (n : nat) (P : nat -> Prop) `{Hd : forall f, Decision (P f)} :
  forallb (fun f => bool_decide (P f)) (seq 0 n) = true -> forall f, f < n -> P f.
Proof.
  intros H f Hf. rewrite forallb_forall in H.
  specialize (H f). rewrite bool_decide_eq_true in H. apply H.
  apply in_seq. lia.
Qed.

(** Symbolic execution of an update towards [exists cmds, m l = inr (tt, cmds)]. *)
Ltac step :=
  lazymatch goal with
  | |- ∃ _, (out _ ≫= _) _ = _ => rewrite bind_out; cbv beta
  | |- ∃ _, (mret _ ≫= _) _ = _ => rewrite bind_ret; cbv beta
  | |- ∃ _, ((_ ≫= _) ≫= _) _ = _ => rewrite bind_assoc
  | |- ∃ _, (get ?l ?i ≫= _) _ = _ =>
      rewrite bind_get; let E := fresh "E" in destruct (py_index l i) eqn:E
  | |- ∃ _, (set_alpha _ ?v ≫= _) _ = _ =>
      rewrite bind_set_alpha; let E := fresh "A" in destruct (alpha_ok v) eqn:E
  | |- ∃ _, ((if ?b then _ else _) ≫= _) _ = _ => let E := fresh "B" in destruct b eqn:E
  | |- ∃ _, (if ?b then _ else _) _ = _ => let E := fresh "B" in destruct b eqn:E
  | |- ∃ _, out _ _ = _ => eexists; reflexivity
  end.

(** The same, backwards from [H : m l = inr r]. *)
Ltac step_in H :=
  lazymatch type of H with
  | (out _ ≫= _) _ = _ => rewrite bind_out in H; cbv beta in H
  | (mret _ ≫= _) _ = _ => rewrite bind_ret in H; cbv beta in H
  | ((_ ≫= _) ≫= _) _ = _ => rewrite bind_assoc in H
  | (get ?l ?i ≫= _) _ = _ =>
      rewrite bind_get in H; let E := fresh "E" in
      destruct (py_index l i) eqn:E; [|discriminate H]
  | (set_alpha _ ?v ≫= _) _ = _ =>
      rewrite bind_set_alpha in H; let E := fresh "A" in
      destruct (alpha_ok v) eqn:E; [|discriminate H]
  | ((if ?b then _ else _) ≫= _) _ = _ => let E := fresh "B" in destruct b eqn:E
  | (if ?b then _ else _) _ = _ => let E := fresh "B" in destruct b eqn:E
  | out _ _ = _ => unfold out in H; injection H as <-
  end.

(** Refutes a branch by checking every frame [f < n] the hypotheses on [f] allow. *)
Ltac exhaust f :=
  repeat match goal with
  | H : context [f] |- _ => match type of H with @eq bool _ _ => revert H end
  end;
  match goal with Hf : f < _ |- _ => revert Hf end;
  repeat match goal with H : context [f] |- _ => clear H end;
  revert f;
  match goal with |- ∀ g, g < ?n → @?P g => apply (forallb_frames n P) end;
  vm_compute; reflexivity.

End AnimFacts.

(** ** Lorenz attractor: the per-frame update *)

Module LorenzAnimFacts.
Import Anim AnimFacts LorenzAnim.

Lemma num_steps_Z : Z.of_nat Lorenz.num_steps = 8000%Z.
Proof. reflexivity. Qed.

Lemma main_index_bounds mp : (1 <= main_index mp <= Z.of_nat Lorenz.num_steps - 1)%Z.
Proof. unfold main_index. rewrite num_steps_Z. lia. Qed.

Ltac close_bad f :=
  lazymatch goal with
  | |- ∃ _, inl _ = _ => exfalso
  | _ => idtac
  end;
  first
  [ match goal with H : alpha_ok ?v = false |- _ =>
      lazymatch v with context [f] => fail | _ => vm_compute in H; discriminate H end end
  | match goal with E : py_index ?l ?i = None |- _ =>
      lazymatch constr:((l, i)) with context [f] => fail | _ => vm_compute in E; discriminate E end end
  | match goal with E : py_index ?l ?i = None |- _ =>
      apply py_index_none in E;
      repeat match type of E with context [main_index ?m] =>
        let Hb := fresh in let i := fresh "i" in
        pose proof (main_index_bounds m) as Hb; set (i := main_index m) in *; clearbody i end;
      repeat match goal with Hl : length _ = _ |- _ => rewrite Hl in E end;
      pose proof num_steps_Z; lia end
  | match goal with E : py_index ?l ?i = None |- _ =>
      assert (match py_index l i with Some _ => true | None => false end = false)
        by (rewrite E; reflexivity); clear E end;
    exhaust f
  | exhaust f ].

End LorenzAnimFacts.

Module LorenzAnimClaims.
Import Anim AnimFacts LorenzAnim LorenzAnimFacts.

Ltac in_cmds := apply list_elem_of_In; simpl; repeat (first [left; reflexivity | right]).

(** Lorenz [update(frame)] never raises: for arrays [xs], [ys], [zs] of
    [num_steps] points (what [rk4_integrate] returns) and every frame
    [0 <= frame < total_frames] that [FuncAnimation] passes, no index is out
    of range and every alpha given to [set_alpha] lies in [0, 1]. *)
Theorem lorenz_update_never_raises np_sin xs ys zs frame :
  length xs = Lorenz.num_steps -> length ys = Lorenz.num_steps ->
  length zs = Lorenz.num_steps -> frame < total_frames ->
  exists cmds, update np_sin xs ys zs frame [] = inr (tt, cmds).
Proof.
  intros Hx Hy Hz Hf. unfold total_frames in Hf. unfold update. cbv zeta.
  repeat step.
  all: close_bad frame.
Qed.

Lemma lorenz_update_never_raises_witness :
  exists cmds, update (fun _ => 0%float) (repeat 0%float Lorenz.num_steps)
                 (repeat 0%float Lorenz.num_steps) (repeat 0%float Lorenz.num_steps) 450 []
               = inr (tt, cmds).
Proof.
  apply lorenz_update_never_raises; [apply repeat_length..|].
  unfold total_frames. lia.
Defined.

(** What a Lorenz frame draws: when [update(frame)] returns (with arrays of
    equal length), the line shows the first [trail_len] points of the path,
    [xs[:k]], [ys[:k]], [zs[:k]] with [k] at most the array length, and the
    moving point sits on the last of them ([xs[0]] while the trail is
    empty). *)
Theorem lorenz_update_trail np_sin xs ys zs frame cmds :
  length ys = length xs -> length zs = length xs ->
  update np_sin xs ys zs frame [] = inr (tt, cmds) ->
  let k := trail_len (length xs) frame in
  k <= length xs /\
  SetData Line (take k xs) (take k ys) ∈ cmds /\
  Set3d Line (take k zs) ∈ cmds /\
  SetData Point [nth (pred k) xs 0%float] [nth (pred k) ys 0%float] ∈ cmds /\
  Set3d Point [nth (pred k) zs 0%float] ∈ cmds.
Proof.
  intros Hy Hz H. unfold update in H. unfold trail_len. cbv zeta in *.
  repeat step_in H.
  1: { (* intro *)
    apply py_index_nonneg in E, E0, E1; [|lia..]. simpl in E, E0, E1.
    rewrite (nth_lookup_Some _ _ _ _ E), (nth_lookup_Some _ _ _ _ E0),
      (nth_lookup_Some _ _ _ _ E1).
    split; [lia|]. repeat split; in_cmds. }
  3: { (* outro *)
    apply py_index_last in E0 as [Hn E0], E1 as [_ E1], E2 as [_ E2].
    rewrite Hy in E1. rewrite Hz in E2.
    replace (pred (length xs)) with (length xs - 1) by lia.
    rewrite (nth_lookup_Some _ _ _ _ E0), (nth_lookup_Some _ _ _ _ E1),
      (nth_lookup_Some _ _ _ _ E2).
    rewrite !take_ge by lia. split; [lia|]. repeat split; in_cmds. }
  all: match goal with |- context [main_index ?m] =>
    pose proof (main_index_bounds m) as Hb; set (i := main_index m) in *; clearbody i end.
  all: rewrite !py_take_nonneg in * by lia.
  all: apply py_index_nonneg in E0, E1, E2; [|lia..].
  all: assert (Z.to_nat (i - 1) = pred (Z.to_nat i)) as Hi by lia; rewrite Hi in E0, E1, E2.
  all: rewrite (nth_lookup_Some _ _ _ _ E0), (nth_lookup_Some _ _ _ _ E1),
    (nth_lookup_Some _ _ _ _ E2).
  all: apply lookup_lt_Some in E0.
  all: split; [lia|]; repeat split; in_cmds.
Qed.

Lemma lorenz_update_trail_witness :
  exists cmds,
    update (fun _ => 0%float) [1%float] [2%float] [3%float] 899 [] = inr (tt, cmds) /\
    let k := trail_len 1 899 in
    k <= 1 /\
    SetData Line (take k [1%float]) (take k [2%float]) ∈ cmds /\
    Set3d Line (take k [3%float]) ∈ cmds /\
    SetData Point [nth (pred k) [1%float] 0%float] [nth (pred k) [2%float] 0%float] ∈ cmds /\
    Set3d Point [nth (pred k) [3%float] 0%float] ∈ cmds.
Proof.
  eexists. split; [vm_compute; reflexivity|].
  apply (lorenz_update_trail (fun _ => 0%float) [1%float] [2%float] [3%float] 899);
    [reflexivity | reflexivity | vm_compute; reflexivity].
Defined.

(** The Lorenz trail only grows: with arrays of [num_steps] points,
    [trail_len] is non-decreasing over the frames [0 .. total_frames - 1],
    empty at the first frame and the whole path at the last. *)
Theorem lorenz_trail_monotone f1 f2 :
  f1 <= f2 -> f2 < total_frames ->
  trail_len Lorenz.num_steps f1 <= trail_len Lorenz.num_steps f2 /\
  trail_len Lorenz.num_steps 0 = 0 /\
  trail_len Lorenz.num_steps (total_frames - 1) = Lorenz.num_steps.
Proof.
  intros H12 H2. split; [|split; vm_compute; reflexivity].
  assert (Hadj : forall f, f < 899 ->
            trail_len Lorenz.num_steps f <= trail_len Lorenz.num_steps (S f)).
  { apply (forallb_frames 899
             (fun f => trail_len Lorenz.num_steps f <= trail_len Lorenz.num_steps (S f))).
    vm_compute. reflexivity. }
  unfold total_frames in H2.
  induction H12 as [|f2 H12 IH]; [lia|].
  etransitivity; [apply IH; lia|]. apply Hadj. lia.
Qed.

Lemma lorenz_trail_monotone_witness :
  trail_len Lorenz.num_steps 100 <= trail_len Lorenz.num_steps 500.
Proof. apply (lorenz_trail_monotone 100 500); unfold total_frames; lia. Defined.

End LorenzAnimClaims.

(* --------------------------------------------------------------------- *)
(** ** The normalisation of generate_superposition *)

Module WaveFacts.
Import WaveFunction.
Local Open Scope Q_scope.

(** *** Exact values of floats are dyadic *)

Definition dyadic (q : Q) : Prop :=
  exists (N : Z) (k : nat), q == inject_Z N / inject_Z (2 ^ Z.of_nat k).



Lemma dyadic_proper a b : a == b -> dyadic a -> dyadic b.
Proof. intros Hab (N & k & H). exists N, k. rewrite <- Hab. exact H. Qed.












Local Close Scope Q_scope.

(** *** Which library values a run depends on *)







(** *** The reference run: collapsed onto the ground state at [t = 0.0] *)









End WaveFacts.

Module WaveClaims.
Import WaveFunction WaveFacts.




End WaveClaims.
